(** * ContextMenuService: a shallow embedding and its checked properties

    The development follows [src/app/src/Services/ContextMenuService.js].
    JavaScript strings are sequences of UTF-16 code units, arrays are lists,
    [undefined] is [None], the [Set] of connected web contents is a [gset],
    the id -> item [Map] of the tree builder is a [gmap], and the objects the
    tree builder mutates through that map live in an explicit store of
    numbered cells. *)

From stdpp Require Import gmap strings list fin_maps.
From Stdlib Require Import NArith ZArith Ascii.

Set Warnings "-register-all".

Local Open Scope Z_scope.
Local Open Scope nat_scope.

(** ** JavaScript strings *)

Module JS.

(** A string is the list of its UTF-16 code units, so that [length] and
    [substr] count what [String.prototype.length] counts. *)
Definition jsstring := list N.

(** An ASCII literal of the source. *)
Definition lit (s : string) : jsstring := N_of_ascii <$> String.list_ascii_of_string s.

(** Truthiness of a string: every string but the empty one. *)
Definition truthy (s : jsstring) : bool :=
  match s with
  | [] => false
  | _ :: _ => true
  end.

(** Truthiness of a string that may be [undefined]. *)
Definition truthy_opt (s : option jsstring) : bool :=
  match s with
  | None => false
  | Some s => truthy s
  end.

(** [a || b] on strings. *)
Definition or_ (a b : jsstring) : jsstring := if truthy a then a else b.

(** [s.startsWith(p)] *)
Fixpoint startsWith (p s : jsstring) : bool :=
  match p, s with
  | [], _ => true
  | _ :: _, [] => false
  | a :: p', b :: s' => bool_decide (a = b) && startsWith p' s'
  end.

(** [s.indexOf(p)], searching from position [i] of the original string;
    [-1] when [p] does not occur. *)
Fixpoint indexOf_from (p s : jsstring) (i : Z) : Z :=
  if startsWith p s then i
  else match s with
       | [] => (-1)%Z
       | _ :: s' => indexOf_from p s' (i + 1)%Z
       end.

Definition indexOf (p s : jsstring) : Z := indexOf_from p s 0%Z.

(** [s.replace(p, r)] for a string pattern [p] and a replacement [r]
    without [$] patterns: the first occurrence of [p] is replaced. *)
Fixpoint replace (p r s : jsstring) : jsstring :=
  if startsWith p s then r ++ drop (length p) s
  else match s with
       | [] => []
       | c :: s' => c :: replace p r s'
       end.

(** [s.substr(0, n)] *)
Definition substr0 (n : nat) (s : jsstring) : jsstring := take n s.

(** U+2026, U+201C and U+201D of the labels. *)
Definition ellipsis : jsstring := [8230%N].
Definition ldquo : jsstring := [8220%N].
Definition rdquo : jsstring := [8221%N].

End JS.

Import JS.

(** ** Menu templates *)

(** The [type] field of a template item; [TypeUnset] is an item without it. *)
Inductive MenuItemType := TypeUnset | TypeCheckbox | TypeRadio | TypeSeparator.

#[global] Instance MenuItemType_eq_dec : EqDecision MenuItemType.
Proof. solve_decision. Defined.

(** [nativeImage.createFromPath] and [nativeImage.createFromDataURL]. *)
Inductive NativeImage :=
  | ImageFromPath (path : option jsstring)
  | ImageFromDataURL (asset : jsstring).

(** Modelled from the spec: [CRExtensionRTContextMenu]
    (shared/Models/CRExtensionRT) is not among the sources. The fields are
    the spec's Extension Menu Node, under the names this service reads them
    by: [id], [parentId] ([undefined] when the node has no parent), [title],
    [type], [enabled], [checked] and [contexts]. *)
Record CRExtensionRTContextMenu := {
  cm_id : jsstring;
  cm_parentId : option jsstring;
  cm_title : jsstring;
  cm_type : jsstring;
  cm_enabled : bool;
  cm_checked : bool;
  cm_contexts : list jsstring
}.

(** What a [click] closure does when the item is chosen. *)
Inductive Effect :=
  | ShellOpenExternal (url : jsstring) (activate : bool)
  | ClipboardWriteText (text : jsstring)
  | OpenLinkInWaveboxWindow (url : jsstring)
  | OpenLinkInWaveboxWindowForAccount (url mailboxId : jsstring)
  | FastCreateWeblinkService (mailboxId url : jsstring)
  | OpenLinkInService (serviceId url : jsstring)
  | ContentsLoadURL (url : jsstring)
  | ContentsDownloadURL (url : jsstring)
  | ContentsGoBack
  | ContentsGoForward
  | ContentsReload
  | ContentsPrint
  | ContentsInspectElement (x y : Z)
  | ContentsReplaceMisspelling (suggestion : jsstring)
  | ContentsSelectAll
  | ContentsReplace (text : jsstring)
  | ContentsUnselect
  | AddUserWord (word : jsstring)
  | SetSpellcheckerLanguage (lang : jsstring)
  | OpenWaveboxSettings
  | OpenAutofillManager (url : jsstring)
  | AddAutofillPassword (url : jsstring)
  | ExtensionOptionSelected (extensionId : jsstring) (menuItem : CRExtensionRTContextMenu).

(** The scalar fields of a template item. *)
Record ItemFields := {
  _id_ : option jsstring;
  label : option jsstring;
  type : MenuItemType;
  role : option jsstring;
  enabled : option bool;
  checked : option bool;
  icon : option NativeImage;
  click : option (list Effect)
}.

(** A template item: its fields and its [submenu], when it has one. *)
Inductive MenuItem := Item (fields : ItemFields) (submenu : option (list MenuItem)).

Definition item_fields (i : MenuItem) : ItemFields := let 'Item f _ := i in f.
Definition item_submenu (i : MenuItem) : option (list MenuItem) := let 'Item _ s := i in s.

Definition no_fields : ItemFields :=
  {| _id_ := None; label := None; type := TypeUnset; role := None;
     enabled := None; checked := None; icon := None; click := None |}.

(** [{ type: 'separator' }] *)
Definition separator_fields : ItemFields :=
  {| _id_ := None; label := None; type := TypeSeparator; role := None;
     enabled := None; checked := None; icon := None; click := None |}.

Definition separator : MenuItem := Item separator_fields None.

(** [{ label, click }] *)
Definition action_item (l : jsstring) (c : list Effect) : MenuItem :=
  Item {| _id_ := None; label := Some l; type := TypeUnset; role := None;
          enabled := None; checked := None; icon := None; click := Some c |} None.

(** [{ label, submenu }] *)
Definition submenu_item (l : jsstring) (items : list MenuItem) : MenuItem :=
  Item {| _id_ := None; label := Some l; type := TypeUnset; role := None;
          enabled := None; checked := None; icon := None; click := None |} (Some items).

Definition is_separator (i : MenuItem) : bool :=
  bool_decide (type (item_fields i) = TypeSeparator).

(** A section is an array of items, or [undefined]. *)
Definition MenuSection := option (list MenuItem).

(** ** The section aggregator *)

(** [array.slice(0, -1)] *)
Definition slice_0_m1 {A} (l : list A) : list A := take (length l - 1) l.

(** [convertSectionsToTemplate (sections)] *)
Definition convertSectionsToTemplate (sections : list MenuSection) : list MenuItem :=
  slice_0_m1
    (foldl (fun acc section =>
              match section with
              | Some ((_ :: _) as s) => acc ++ s ++ [separator]
              | Some [] | None => acc
              end) [] sections).

(** ** The context of one invocation *)

Record EditFlags := {
  canUndo : bool;
  canRedo : bool;
  canCut : bool;
  canCopy : bool;
  canPaste : bool;
  canSelectAll : bool
}.

(** The [params] of the [context-menu] event. *)
Record Params := {
  linkURL : jsstring;
  selectionText : jsstring;
  isEditable : bool;
  misspelledWord : jsstring;
  editFlags : EditFlags;
  mediaType : jsstring;
  srcURL : jsstring;
  pageURL : jsstring;
  frameURL : jsstring;
  inputFieldType : jsstring;
  params_x : Z;
  params_y : Z
}.

(** What the service reads from a [webContents] at one moment. *)
Record WebContents := {
  contents_id : nat;
  getURL : jsstring;
  isDestroyed : bool;
  sessionIsDefault : bool;
  canGoBack : bool;
  canGoForward : bool
}.

Record Mailbox := {
  mailbox_id : jsstring;
  allServices : list jsstring;
  partitionId : jsstring
}.

Record Service := {
  service_id : jsstring;
  service_url : jsstring
}.

(** The account store: its mailboxes and services in order. *)
Record AccountState := {
  mailboxes : list Mailbox;
  services : list Service;
  resolvedMailboxDisplayName : jsstring -> jsstring;
  resolvedServiceDisplayName : jsstring -> jsstring
}.

Definition mailboxIds (a : AccountState) : list jsstring := mailbox_id <$> mailboxes a.

Definition getMailbox (a : AccountState) (mailboxId : jsstring) : option Mailbox :=
  List.find (fun m => bool_decide (mailbox_id m = mailboxId)) (mailboxes a).

Definition getService (a : AccountState) (serviceId : jsstring) : option Service :=
  List.find (fun s => bool_decide (service_id s = serviceId)) (services a).

Inductive WindowBackingType := MAILBOX_SERVICE | OTHER_BACKING.

#[global] Instance WindowBackingType_eq_dec : EqDecision WindowBackingType.
Proof. solve_decision. Defined.

Record TabMetaInfo := {
  backing : WindowBackingType;
  meta_mailboxId : jsstring;
  meta_serviceId : jsstring
}.

Record WaveboxWindow := {
  rootWebContentsHasContextMenu : bool;
  rootWebContentsId : nat
}.

(** The window manager at one moment: which root contents, browser window
    and Wavebox window a contents id resolves to. *)
Record Windows := {
  rootWebContents : nat -> option nat;
  browserWindowFromWebContents : nat -> option nat;
  waveboxWindowFromBrowserWindow : nat -> option WaveboxWindow;
  waveboxWindowFromTabId : nat -> option WaveboxWindow;
  tabMetaInfo : nat -> option TabMetaInfo
}.

Record SuggestionList := {
  language : jsstring;
  suggestions : list jsstring
}.

Record Suggestions := {
  primary : option SuggestionList;
  secondary : option SuggestionList
}.

Record SpellcheckerService := {
  spellSuggestionsSync : jsstring -> Suggestions;
  getInstalledDictionaries : list jsstring;
  primaryLanguage : jsstring;
  getHumanizedLanguageName : jsstring -> jsstring
}.

Record Credential := {
  account : jsstring;
  password : jsstring
}.

(** A settled promise. *)
Inductive Settled (A : Type) :=
  | Fulfilled (a : A)
  | Rejected.
Arguments Fulfilled {A} a.
Arguments Rejected {A}.

Record AutofillService := {
  isAvailable : bool;
  isValidAutofillUrl : jsstring -> bool;
  findCredentials : jsstring -> Settled (list Credential)
}.

(** The context menus one extension registered, after the munging step of
    [renderExtensionSection]. *)
Record ExtensionContextMenus := {
  ext_name : jsstring;
  ext_icon16 : option jsstring;
  contextMenus : list CRExtensionRTContextMenu
}.

(** Everything outside the service that a menu launch reads. *)
Record Env := {
  platform : jsstring;
  windows : Windows;
  accountState : AccountState;
  showCtxMenuAdvancedLinkOptions : bool;
  spellcheckerService : SpellcheckerService;
  autofillService : AutofillService;
  AUTOFILL_MENU : jsstring;
  encodeURIComponent : jsstring -> jsstring;
  runtimeContextMenuData : list (jsstring * ExtensionContextMenus)
}.

(** ** Section renderers *)

(** Writing one more property into an item literal. *)
Definition with_enabled (b : bool) (i : MenuItem) : MenuItem :=
  let 'Item f s := i in
  Item {| _id_ := _id_ f; label := label f; type := type f; role := role f;
          enabled := Some b; checked := checked f; icon := icon f; click := click f |} s.

Definition with_checked (b : bool) (i : MenuItem) : MenuItem :=
  let 'Item f s := i in
  Item {| _id_ := _id_ f; label := label f; type := type f; role := role f;
          enabled := enabled f; checked := Some b; icon := icon f; click := click f |} s.

Definition with_type (t : MenuItemType) (i : MenuItem) : MenuItem :=
  let 'Item f s := i in
  Item {| _id_ := _id_ f; label := label f; type := t; role := role f;
          enabled := enabled f; checked := checked f; icon := icon f; click := click f |} s.

Definition with_icon (img : NativeImage) (i : MenuItem) : MenuItem :=
  let 'Item f s := i in
  Item {| _id_ := _id_ f; label := label f; type := type f; role := role f;
          enabled := enabled f; checked := checked f; icon := Some img; click := click f |} s.

(** [{ label, role }] *)
Definition role_item (l r : jsstring) : MenuItem :=
  Item {| _id_ := None; label := Some l; type := TypeUnset; role := Some r;
          enabled := None; checked := None; icon := None; click := None |} None.

(** [{ label }] *)
Definition label_item (l : jsstring) : MenuItem :=
  Item {| _id_ := None; label := Some l; type := TypeUnset; role := None;
          enabled := None; checked := None; icon := None; click := None |} None.

(** [getMenuAccountInfo (tabId)]: [None] is [{ has: false }]. *)
Definition getMenuAccountInfo (env : Env) (tabId : nat) : option (Mailbox * Service) :=
  match tabMetaInfo (windows env) tabId with
  | None => None
  | Some meta =>
    if bool_decide (backing meta ≠ MAILBOX_SERVICE) then None
    else
      match getMailbox (accountState env) (meta_mailboxId meta),
            getService (accountState env) (meta_serviceId meta) with
      | Some mailbox, Some service => Some (mailbox, service)
      | _, _ => None
      end
  end.

(** The [click] closure of 'Copy Link Address'. *)
Definition copyLinkAddress (params : Params) : list Effect :=
  if startsWith (lit "mailto:") (linkURL params)
     && bool_decide (indexOf (lit "?") (linkURL params) = (-1)%Z)
  then [ClipboardWriteText (replace (lit "mailto:") [] (linkURL params))]
  else [ClipboardWriteText (linkURL params)].

(** The 'Open Link in Account Profile' entry of [renderURLSection]. *)
Definition renderAccountProfileItems (env : Env) (params : Params) : list MenuItem :=
  let accountState := accountState env in
  let mailboxIds := mailboxIds accountState in
  if bool_decide (1 < length mailboxIds) then
    if showCtxMenuAdvancedLinkOptions env then
      [submenu_item (lit "Open Link in Account Profile")
         ((fun mailboxId =>
             submenu_item (resolvedMailboxDisplayName accountState mailboxId)
               ([action_item (lit "New Window")
                   [OpenLinkInWaveboxWindowForAccount (linkURL params) mailboxId];
                 separator]
                ++ ((fun serviceId =>
                       action_item (resolvedServiceDisplayName accountState serviceId)
                         [OpenLinkInService serviceId (linkURL params)])
                      <$> default [] (allServices <$> getMailbox accountState mailboxId))))
            <$> mailboxIds)]
    else
      [submenu_item (lit "Open Link in Account Profile")
         ((fun mailboxId =>
             action_item (resolvedMailboxDisplayName accountState mailboxId)
               [OpenLinkInWaveboxWindowForAccount (linkURL params) mailboxId])
            <$> mailboxIds)]
  else [].

(** [renderURLSection (contents, params, accountInfo, isWaveboxUIContents)] *)
Definition renderURLSection (env : Env) (contents : WebContents) (params : Params)
    (accountInfo : option (Mailbox * Service)) (isWaveboxUIContents : bool) : list MenuItem :=
  if truthy (linkURL params) && negb isWaveboxUIContents then
    [action_item (lit "Open Link in Browser") [ShellOpenExternal (linkURL params) true]]
    ++ (if bool_decide (platform env = lit "darwin")
        then [action_item (lit "Open Link in Background")
                [ShellOpenExternal (linkURL params) false]]
        else [])
    ++ [action_item (lit "Copy Link Address") (copyLinkAddress params)]
    ++ (if startsWith (lit "http://") (linkURL params)
           || startsWith (lit "https://") (linkURL params)
        then
          [separator;
           submenu_item (lit "Open Link with Wavebox")
             ([action_item (lit "Open Link in New Window")
                 [OpenLinkInWaveboxWindow (linkURL params)]]
              ++ match accountInfo with
                 | Some (mailbox, _) =>
                   [action_item (lit "Open Link as New Service")
                      [FastCreateWeblinkService (mailbox_id mailbox) (linkURL params)]]
                 | None => []
                 end
              ++ [action_item (lit "Open Link Here") [ContentsLoadURL (linkURL params)]])]
        else [])
    ++ renderAccountProfileItems env params
  else [].

(** The display form of the selection in [renderLookupAndSearchSection]. *)
Definition displayText (params : Params) : jsstring :=
  if bool_decide (50 <= length (selectionText params))
  then substr0 47 (selectionText params) ++ ellipsis
  else selectionText params.

(** [renderLookupAndSearchSection (contents, params)] *)
Definition renderLookupAndSearchSection (env : Env) (contents : WebContents) (params : Params)
    : list MenuItem :=
  if truthy (selectionText params) then
    (if isEditable params && truthy (misspelledWord params)
     then [action_item
             (lit "Add " ++ ldquo ++ misspelledWord params ++ rdquo ++ lit " to Dictionary")
             [AddUserWord (misspelledWord params)]]
     else [])
    ++ [action_item
          (lit "Search Google for " ++ ldquo ++ displayText params ++ rdquo)
          [ShellOpenExternal
             (lit "https://google.com/search?q=" ++ encodeURIComponent env (selectionText params))
             true];
        action_item
          (lit "Translate " ++ ldquo ++ displayText params ++ rdquo)
          [ShellOpenExternal
             (lit "http://translate.google.com/#auto/#/"
                ++ encodeURIComponent env (selectionText params))
             true]]
  else [].

(** [renderRewindSection (contents, params)] *)
Definition renderRewindSection (contents : WebContents) (params : Params) : list MenuItem :=
  if canUndo (editFlags params) || canRedo (editFlags params) then
    [with_enabled (canUndo (editFlags params)) (role_item (lit "Undo") (lit "undo"));
     with_enabled (canRedo (editFlags params)) (role_item (lit "Redo") (lit "redo"))]
  else [].

(** [renderEditingSection (contents, params)] *)
Definition renderEditingSection (contents : WebContents) (params : Params) : list MenuItem :=
  if bool_decide (mediaType params = lit "image") then
    [action_item (lit "Open Image in Browser") [ShellOpenExternal (srcURL params) true];
     action_item (lit "Save Image As" ++ ellipsis) [ContentsDownloadURL (srcURL params)];
     action_item (lit "Copy Image Address") [ClipboardWriteText (srcURL params)]]
  else
    (if canCut (editFlags params) then [role_item (lit "Cut") (lit "cut")] else [])
    ++ (if canCopy (editFlags params) then [role_item (lit "Copy") (lit "copy")] else [])
    ++ (if canPaste (editFlags params) then [role_item (lit "Paste") (lit "paste")] else [])
    ++ (if canPaste (editFlags params)
        then [role_item (lit "Paste and match style") (lit "pasteandmatchstyle")] else [])
    ++ (if canSelectAll (editFlags params)
        then [role_item (lit "Select all") (lit "selectall")] else []).

(** [renderPageNavigationSection (contents, params, accountInfo)] *)
Definition renderPageNavigationSection (contents : WebContents) (params : Params)
    (accountInfo : option (Mailbox * Service)) : list MenuItem :=
  match accountInfo with
  | Some (_, service) => [action_item (lit "Home") [ContentsLoadURL (service_url service)]]
  | None => []
  end
  ++ [with_enabled (canGoBack contents) (action_item (lit "Go Back") [ContentsGoBack])]
  ++ (if canGoForward contents
      then [action_item (lit "Go Forward") [ContentsGoForward]] else [])
  ++ [action_item (lit "Reload") [ContentsReload]].

(** [renderPageExternalSection (contents, params, accountInfo, isWaveboxUIContents)] *)
Definition renderPageExternalSection (contents : WebContents) (params : Params)
    (accountInfo : option (Mailbox * Service)) (isWaveboxUIContents : bool) : list MenuItem :=
  if isWaveboxUIContents then []
  else
    [action_item (lit "Copy Current URL") [ClipboardWriteText (pageURL params)];
     submenu_item (lit "Open Page")
       ([action_item (lit "Open Page in Browser") [ShellOpenExternal (pageURL params) true];
         action_item (lit "Open Page in Wavebox") [OpenLinkInWaveboxWindow (pageURL params)]]
        ++ match accountInfo with
           | Some (mailbox, _) =>
             [action_item (lit "Open Page as New Service")
                [FastCreateWeblinkService (mailbox_id mailbox) (pageURL params)]]
           | None => []
           end);
     action_item (lit "Print") [ContentsPrint]].

(** [renderWaveboxSection (contents, params)] *)
Definition renderWaveboxSection (env : Env) (contents : WebContents) (params : Params)
    : list MenuItem :=
  let installedDictionaries := getInstalledDictionaries (spellcheckerService env) in
  [action_item (lit "Wavebox Settings") [OpenWaveboxSettings]]
  ++ (if bool_decide (1 < length installedDictionaries) then
        let currentLanguage := primaryLanguage (spellcheckerService env) in
        [submenu_item (lit "Change Dictionary")
           ((fun lang =>
               with_checked (bool_decide (lang = currentLanguage))
                 (with_type TypeRadio
                    (action_item (getHumanizedLanguageName (spellcheckerService env) lang)
                       [SetSpellcheckerLanguage lang])))
              <$> installedDictionaries)]
      else [])
  ++ [action_item (lit "Inspect") [ContentsInspectElement (params_x params) (params_y params)]].

(** [renderSpellingSuggestionMenuItems (contents, suggestions)] *)
Definition renderSpellingSuggestionMenuItems (contents : WebContents)
    (suggestions : list jsstring) : list MenuItem :=
  match suggestions with
  | _ :: _ =>
    (fun suggestion => action_item suggestion [ContentsReplaceMisspelling suggestion])
      <$> suggestions
  | [] => [with_enabled false (label_item (lit "No Spelling Suggestions"))]
  end.

(** [renderSpellingSection (contents, params)] *)
Definition renderSpellingSection (env : Env) (contents : WebContents) (params : Params)
    : list MenuItem :=
  if isEditable params && truthy (misspelledWord params) then
    let sugg := spellSuggestionsSync (spellcheckerService env) (misspelledWord params) in
    match primary sugg, secondary sugg with
    | Some p, Some s =>
      [submenu_item (getHumanizedLanguageName (spellcheckerService env) (language p))
         (renderSpellingSuggestionMenuItems contents (suggestions p));
       submenu_item (getHumanizedLanguageName (spellcheckerService env) (language s))
         (renderSpellingSuggestionMenuItems contents (suggestions s))]
    | Some p, None => renderSpellingSuggestionMenuItems contents (suggestions p)
    | None, Some s => renderSpellingSuggestionMenuItems contents (suggestions s)
    | None, None => renderSpellingSuggestionMenuItems contents []
    end
  else [].

(** [isAutofillPasswordField (contents, params)] *)
Definition isAutofillPasswordField (contents : WebContents) (params : Params) : bool :=
  if bool_decide (inputFieldType params ≠ lit "password") then false
  else if negb (isEditable params) then false
  else if negb (startsWith (lit "https://") (getURL contents)) then false
  else true.

(** [renderAutofillSection (contents, params, credentials)]; [None] is the
    [undefined] it returns for a field that is not eligible. *)
Definition renderAutofillSection (env : Env) (contents : WebContents) (params : Params)
    (credentials : list Credential) : MenuSection :=
  if negb (isAutofillPasswordField contents params) then None
  else
    Some (((fun rec =>
              with_icon (ImageFromDataURL (AUTOFILL_MENU env))
                (action_item (account rec)
                   [ContentsSelectAll; ContentsReplace (password rec); ContentsUnselect]))
             <$> credentials)
          ++ [action_item (lit "Manage saved passwords") [OpenAutofillManager (getURL contents)];
              action_item (lit "Add new password") [AddAutofillPassword (getURL contents)]]).

(** ** Extension menus *)

(** Modelled from the spec: the constants of [CRExtensionRTContextMenu]
    (shared/Models/CRExtensionRT), which is not among the sources; the spec
    names the visibility markers all, page and editable. *)
Module CONTEXT_TYPES.
Definition ALL : jsstring := lit "all".
Definition PAGE : jsstring := lit "page".
Definition EDITABLE : jsstring := lit "editable".
End CONTEXT_TYPES.

(** Modelled from the spec: the item kinds of [CRExtensionRTContextMenu],
    which is not among the sources; the spec names the kinds normal,
    checkbox, radio and separator. *)
Module ITEM_TYPES.
Definition NORMAL : jsstring := lit "normal".
Definition CHECKBOX : jsstring := lit "checkbox".
Definition RADIO : jsstring := lit "radio".
Definition SEPERATOR : jsstring := lit "separator".
End ITEM_TYPES.

(** [renderExtensionMenuItem (contents, params, extensionId, menuItem)]:
    the fields of the object it returns, [None] for [undefined]. *)
Definition renderExtensionMenuItem (contents : WebContents) (params : Params)
    (extensionId : jsstring) (menuItem : CRExtensionRTContextMenu) : option ItemFields :=
  if bool_decide (cm_type menuItem = ITEM_TYPES.NORMAL) then
    Some {| _id_ := Some (cm_id menuItem); label := Some (cm_title menuItem);
            type := TypeUnset; role := None; enabled := Some (cm_enabled menuItem);
            checked := None; icon := None;
            click := Some [ExtensionOptionSelected extensionId menuItem] |}
  else if bool_decide (cm_type menuItem = ITEM_TYPES.CHECKBOX) then
    Some {| _id_ := Some (cm_id menuItem); label := Some (cm_title menuItem);
            type := TypeCheckbox; role := None; enabled := None;
            checked := Some (cm_checked menuItem); icon := None;
            click := Some [ExtensionOptionSelected extensionId menuItem] |}
  else if bool_decide (cm_type menuItem = ITEM_TYPES.RADIO) then
    Some {| _id_ := Some (cm_id menuItem); label := Some (cm_title menuItem);
            type := TypeRadio; role := None; enabled := None;
            checked := Some (cm_checked menuItem); icon := None;
            click := Some [ExtensionOptionSelected extensionId menuItem] |}
  else if bool_decide (cm_type menuItem = ITEM_TYPES.SEPERATOR) then
    Some separator_fields
  else None.

(** The objects [renderExtensionMenuTree] creates are shared between the
    [root] array, the [index] map and the [submenu] arrays of their parents,
    and are mutated through the map. A cell of the store is one such object;
    an object is named by the position of its cell. *)
Record Cell := {
  cell_fields : ItemFields;
  cell_submenu : option (list nat)
}.

Record TreeState := {
  root : list nat;
  index : gmap jsstring nat;
  store : list Cell
}.

(** [parent.submenu = parent.submenu || []; parent.submenu.push(rendered)] *)
Definition push_submenu (rendered : nat) (parent : Cell) : Cell :=
  {| cell_fields := cell_fields parent;
     cell_submenu := Some (default [] (cell_submenu parent) ++ [rendered]) |}.

(** [menuItem.parentId && index.get(menuItem.parentId)], when truthy. *)
Definition lookup_parent (st : TreeState) (menuItem : CRExtensionRTContextMenu) : option nat :=
  if truthy_opt (cm_parentId menuItem)
  then cm_parentId menuItem ≫= (fun parentId => index st !! parentId)
  else None.

(** The body of the [forEach] of [renderExtensionMenuTree]. *)
Definition tree_step (contents : WebContents) (params : Params) (extensionId : jsstring)
    (st : TreeState) (menuItem : CRExtensionRTContextMenu) : TreeState :=
  match renderExtensionMenuItem contents params extensionId menuItem with
  | Some fields =>
    let rendered := length (store st) in
    let store' := store st ++ [{| cell_fields := fields; cell_submenu := None |}] in
    match lookup_parent st menuItem with
    | Some parent =>
      {| root := root st;
         index := <[cm_id menuItem := rendered]> (index st);
         store := alter (push_submenu rendered) parent store' |}
    | None =>
      {| root := root st ++ [rendered];
         index := <[cm_id menuItem := rendered]> (index st);
         store := store' |}
    end
  | None => st
  end.

Definition tree_init : TreeState := {| root := []; index := ∅; store := [] |}.

(** The state of [root], [index] and the objects when the [forEach] ends. *)
Definition renderExtensionMenuTree_state (contents : WebContents) (params : Params)
    (extensionId : jsstring) (contextMenus : list CRExtensionRTContextMenu) : TreeState :=
  foldl (tree_step contents params extensionId) tree_init contextMenus.

(** Reading the object [r] out of the store as a template item, following
    the [submenu] arrays at most [fuel] levels down. *)
Fixpoint resolve (fuel : nat) (cells : list Cell) (r : nat) : MenuItem :=
  match fuel with
  | 0 => Item no_fields None
  | S fuel' =>
    match cells !! r with
    | None => Item no_fields None
    | Some c =>
      Item (cell_fields c)
           match cell_submenu c with
           | Some rs => Some (List.map (resolve fuel' cells) rs)
           | None => None
           end
    end
  end.

(** [renderExtensionMenuTree (contents, params, extensionId, contextMenus)]:
    the returned [root] array, read out of the store. *)
Definition renderExtensionMenuTree (contents : WebContents) (params : Params)
    (extensionId : jsstring) (contextMenus : list CRExtensionRTContextMenu) : list MenuItem :=
  let st := renderExtensionMenuTree_state contents params extensionId contextMenus in
  resolve (S (length (store st))) (store st) <$> root st.

(** The callback of the [filter] in [renderExtensionSection]. *)
Definition validContextMenu (params : Params) (menu : CRExtensionRTContextMenu) : bool :=
  let contexts : gset jsstring := list_to_set (cm_contexts menu) in
  if bool_decide (or_ CONTEXT_TYPES.ALL CONTEXT_TYPES.PAGE ∈ contexts) then true
  else if isEditable params && bool_decide (CONTEXT_TYPES.EDITABLE ∈ contexts) then true
  else false.

(** [{ icon: img, ...item }] *)
Definition spread_under_icon (img : NativeImage) (i : MenuItem) : MenuItem :=
  match icon (item_fields i) with
  | Some _ => i
  | None => with_icon img i
  end.

(** The body of the second [forEach] of [renderExtensionSection]: what one
    extension pushes onto [template]. *)
Definition renderExtension (contents : WebContents) (params : Params)
    (extensionId : jsstring) (ext : ExtensionContextMenus) : list MenuItem :=
  let validContextMenus := List.filter (validContextMenu params) (contextMenus ext) in
  let renderedMenuTemplate :=
    renderExtensionMenuTree contents params extensionId validContextMenus in
  match renderedMenuTemplate with
  | [item] => (* renderedMenuTemplate.length === 1 *)
    [spread_under_icon (ImageFromPath (ext_icon16 ext)) item]
  | _ =>
    if bool_decide (1 < length validContextMenus) then
      [with_icon (ImageFromPath (ext_icon16 ext))
         (submenu_item (ext_name ext) renderedMenuTemplate)]
    else []
  end.

(** [renderExtensionSection (contents, params)] *)
Definition renderExtensionSection (env : Env) (contents : WebContents) (params : Params)
    : list MenuItem :=
  match waveboxWindowFromTabId (windows env) (contents_id contents) with
  | None => []
  | Some _ =>
    foldl (fun template '(extensionId, ext) =>
             template ++ renderExtension contents params extensionId ext)
          [] (runtimeContextMenuData env)
  end.

(** ** Launching and presenting the menu *)

(** A menu handed to [Menu.buildFromTemplate] and popped up on a window. *)
Record Popup := {
  popup_window : nat;
  popup_template : list MenuItem
}.

(** Code that pops up menus and ends like a promise: the menus presented so
    far are threaded through, [Rejected] is a throw or a rejection. *)
Definition Async (A : Type) : Type := list Popup -> list Popup * Settled A.

Definition async_ret {A} (a : A) : Async A := fun ui => (ui, Fulfilled a).

(** The promise an external service returned. *)
Definition async_of {A} (p : Settled A) : Async A := fun ui => (ui, p).

(** [p.then(f)] *)
Definition async_then {A B} (p : Async A) (f : A -> Async B) : Async B :=
  fun ui =>
    match p ui with
    | (ui', Fulfilled a) => f a ui'
    | (ui', Rejected) => (ui', Rejected)
    end.

(** [p.catch(g)] *)
Definition async_catch {A} (p : Async A) (g : Async A) : Async A :=
  fun ui =>
    match p ui with
    | (ui', Fulfilled a) => (ui', Fulfilled a)
    | (ui', Rejected) => g ui'
    end.

(** [presentMenu (browserWindow, sections)] *)
Definition presentMenu (browserWindow : nat) (sections : list MenuSection) : Async unit :=
  fun ui =>
    (ui ++ [{| popup_window := browserWindow;
               popup_template := convertSectionsToTemplate sections |}],
     Fulfilled tt).

(** The [sections] array of [launchMenu]. *)
Definition launchMenu_sections (env : Env) (contents : WebContents) (params : Params)
    : list MenuSection :=
  let accountInfo := getMenuAccountInfo env (contents_id contents) in
  let isWaveboxUIContents := sessionIsDefault contents in
  [Some (renderSpellingSection env contents params);
   Some (renderURLSection env contents params accountInfo isWaveboxUIContents);
   Some (renderLookupAndSearchSection env contents params);
   Some (renderRewindSection contents params);
   Some (renderEditingSection contents params);
   Some (renderPageNavigationSection contents params accountInfo);
   Some (renderPageExternalSection contents params accountInfo isWaveboxUIContents);
   Some (renderExtensionSection env contents params);
   Some (renderWaveboxSection env contents params)].

(** [launchMenu (evt, params)] with [contents = evt.sender]. [contents] is
    the sender as read when the event fires and [settled] the same sender as
    read when the credential lookup settles. *)
Definition launchMenu (env : Env) (contents settled : WebContents) (params : Params)
    : Async unit :=
  match rootWebContents (windows env) (contents_id contents) with
  | None => async_ret tt
  | Some rootContents =>
    match browserWindowFromWebContents (windows env) rootContents with
    | None => async_ret tt
    | Some browserWindow =>
      let sections := launchMenu_sections env contents params in
      if isAvailable (autofillService env)
         && isValidAutofillUrl (autofillService env) (getURL contents)
         && isAutofillPasswordField contents params
      then
        async_catch
          (async_then
             (async_of (findCredentials (autofillService env) (getURL contents)))
             (fun credentials =>
                presentMenu browserWindow
                  ([renderAutofillSection env settled params credentials] ++ sections)))
          (presentMenu browserWindow sections)
      else presentMenu browserWindow sections
    end
  end.

(** ** Binding the menu to web contents *)

(** The service's [privConnected] set together with what it registered on
    the web contents: one entry of [contextMenuListeners] per
    [contents.on('context-menu', this.launchMenu)], one entry of
    [destroyedListeners] per [contents.on('destroyed', ...)], each holding
    the id of the contents it was registered on. [destroyedContents] are the
    contents for which [isDestroyed()] holds, [immediates] the callbacks
    given to [setImmediate] that have not run yet. *)
Record Registry := {
  privConnected : gset nat;
  contextMenuListeners : list nat;
  destroyedListeners : list nat;
  destroyedContents : gset nat;
  immediates : list nat
}.

Definition registry_init : Registry :=
  {| privConnected := ∅; contextMenuListeners := []; destroyedListeners := [];
     destroyedContents := ∅; immediates := [] |}.

(** [_handleWebContentsCreated (evt, contents)]: the callback is queued. *)
Definition _handleWebContentsCreated (webContentsId : nat) (reg : Registry) : Registry :=
  {| privConnected := privConnected reg;
     contextMenuListeners := contextMenuListeners reg;
     destroyedListeners := destroyedListeners reg;
     destroyedContents := destroyedContents reg;
     immediates := immediates reg ++ [webContentsId] |}.

(** [_handleBrowserWindowCreated (evt, window)] with the id of
    [window.webContents]. *)
Definition _handleBrowserWindowCreated (windowWebContentsId : nat) (reg : Registry) : Registry :=
  _handleWebContentsCreated windowWebContentsId reg.

(** The test in front of [return] under 'Check we're suitable'. *)
Definition rootHasNoContextMenu (w : Windows) (browserWindow webContentsId : nat) : bool :=
  match waveboxWindowFromBrowserWindow w browserWindow with
  | Some waveboxWindow =>
    negb (rootWebContentsHasContextMenu waveboxWindow)
    && bool_decide (rootWebContentsId waveboxWindow = webContentsId)
  | None => false
  end.

(** The callback [_handleWebContentsCreated] gives to [setImmediate], run
    when the window manager is in state [w]. *)
Definition bindContextMenu (w : Windows) (webContentsId : nat) (reg : Registry) : Registry :=
  if bool_decide (webContentsId ∈ destroyedContents reg) then reg
  else if bool_decide (webContentsId ∈ privConnected reg) then reg
  else
    match rootWebContents w webContentsId with
    | None => reg
    | Some rootContents =>
      match browserWindowFromWebContents w rootContents with
      | None => reg
      | Some browserWindow =>
        if rootHasNoContextMenu w browserWindow webContentsId then reg
        else
          {| privConnected := {[webContentsId]} ∪ privConnected reg;
             contextMenuListeners := contextMenuListeners reg ++ [webContentsId];
             destroyedListeners := destroyedListeners reg ++ [webContentsId];
             destroyedContents := destroyedContents reg;
             immediates := immediates reg |}
      end
    end.

(** [contents.emit('destroyed')]: the contents is destroyed and every
    observer registered on it runs [privConnected.delete (webContentsId)]. *)
Definition destroyContents (webContentsId : nat) (reg : Registry) : Registry :=
  {| privConnected :=
       if bool_decide (webContentsId ∈ destroyedListeners reg)
       then privConnected reg ∖ {[webContentsId]}
       else privConnected reg;
     contextMenuListeners := contextMenuListeners reg;
     destroyedListeners := destroyedListeners reg;
     destroyedContents := {[webContentsId]} ∪ destroyedContents reg;
     immediates := immediates reg |}.

(** The event loop takes the next [setImmediate] callback and runs it. *)
Definition runImmediate (w : Windows) (reg : Registry) : Registry :=
  match immediates reg with
  | [] => reg
  | webContentsId :: rest =>
    bindContextMenu w webContentsId
      {| privConnected := privConnected reg;
         contextMenuListeners := contextMenuListeners reg;
         destroyedListeners := destroyedListeners reg;
         destroyedContents := destroyedContents reg;
         immediates := rest |}
  end.

(** What can happen to the service between two menu launches. *)
Inductive Event :=
  | WebContentsCreated (webContentsId : nat)
  | BrowserWindowCreated (windowWebContentsId : nat)
  | Immediate (w : Windows)
  | ContentsDestroyed (webContentsId : nat).

Definition step (reg : Registry) (e : Event) : Registry :=
  match e with
  | WebContentsCreated webContentsId => _handleWebContentsCreated webContentsId reg
  | BrowserWindowCreated webContentsId => _handleBrowserWindowCreated webContentsId reg
  | Immediate w => runImmediate w reg
  | ContentsDestroyed webContentsId => destroyContents webContentsId reg
  end.

(** The service after the events [evs], from its constructor on. *)
Definition run (evs : list Event) : Registry := foldl step registry_init evs.

(** The [context-menu] listeners bound on one contents. *)
Definition listenersOf (webContentsId : nat) (reg : Registry) : list nat :=
  List.filter (fun i => bool_decide (i = webContentsId)) (contextMenuListeners reg).

(** [contents.emit('context-menu', evt, params)]: every bound listener is a
    call of [launchMenu]; the menus presented by all of them. *)
Definition emitContextMenu (env : Env) (reg : Registry) (contents settled : WebContents)
    (params : Params) : list Popup :=
  foldl (fun ui _ => (launchMenu env contents settled params ui).1) []
        (listenersOf (contents_id contents) reg).

(** ** Vocabulary of the properties *)

Definition starts_with_separator (t : list MenuItem) : bool :=
  match t with
  | i :: _ => is_separator i
  | [] => false
  end.

Definition ends_with_separator (t : list MenuItem) : bool :=
  match last t with
  | Some i => is_separator i
  | None => false
  end.

Fixpoint has_consecutive_separators (t : list MenuItem) : bool :=
  match t with
  | [] => false
  | i :: t' => (is_separator i && starts_with_separator t') || has_consecutive_separators t'
  end.

(** No separator first, none last, no two in a row. *)
Definition well_separated (t : list MenuItem) : bool :=
  negb (starts_with_separator t) && negb (ends_with_separator t)
  && negb (has_consecutive_separators t).

(** The sections that are arrays with at least one item. *)
Definition non_empty_sections (sections : list MenuSection) : list (list MenuItem) :=
  omap (fun section =>
          match section with
          | Some ((_ :: _) as s) => Some s
          | Some [] | None => None
          end) sections.

(** The spec's composition: sections in order, one separator between each
    two neighbours, none before the first and none after the last. *)
Fixpoint join_sections (ss : list (list MenuItem)) : list MenuItem :=
  match ss with
  | [] => []
  | s :: ss' =>
    match ss' with
    | [] => s
    | _ :: _ => s ++ separator :: join_sections ss'
    end
  end.

(** The credential lookup is started: the condition of the [if] in
    [launchMenu] holds. *)
Definition lookup_started (env : Env) (contents : WebContents) (params : Params) : Prop :=
  isAvailable (autofillService env) = true
  /\ isValidAutofillUrl (autofillService env) (getURL contents) = true
  /\ isAutofillPasswordField contents params = true.

(** The two items [renderLookupAndSearchSection] ends with, when the
    selection is shown as [shown]. *)
Definition search_and_translate (env : Env) (params : Params) (shown : jsstring)
    : list MenuItem :=
  [action_item
     (lit "Search Google for " ++ ldquo ++ shown ++ rdquo)
     [ShellOpenExternal
        (lit "https://google.com/search?q=" ++ encodeURIComponent env (selectionText params))
        true];
   action_item
     (lit "Translate " ++ ldquo ++ shown ++ rdquo)
     [ShellOpenExternal
        (lit "http://translate.google.com/#auto/#/"
           ++ encodeURIComponent env (selectionText params))
        true]].

(** What holds of the service after any sequence of events: a connected
    contents carries exactly one listener, a contents that is neither
    connected nor destroyed carries none, and no contents carries two. *)
Definition bound_once (reg : Registry) : Prop :=
  forall i,
    (i ∈ privConnected reg -> length (listenersOf i reg) = 1)
    /\ (i ∉ privConnected reg -> i ∉ destroyedContents reg ->
        length (listenersOf i reg) = 0)
    /\ length (listenersOf i reg) <= 1.

(** The objects of the store that sit in some [submenu] array, with
    multiplicity. *)
Definition submenu_entries (cells : list Cell) : list nat :=
  concat ((fun c => default [] (cell_submenu c)) <$> cells).

(** The object [r] can be reached from the [root] array through [submenu]
    arrays. *)
Inductive reachable (st : TreeState) : nat -> Prop :=
  | reachable_root r : r ∈ root st -> reachable st r
  | reachable_submenu p c rs r :
      reachable st p ->
      store st !! p = Some c ->
      cell_submenu c = Some rs ->
      r ∈ rs ->
      reachable st r.

(** The object created for the node at position [n] of [contextMenus]: the
    objects are numbered in creation order, one per rendered node. *)
Definition object_of (contents : WebContents) (params : Params) (extensionId : jsstring)
    (contextMenus : list CRExtensionRTContextMenu) (n : nat) : nat :=
  length (omap (renderExtensionMenuItem contents params extensionId) (take n contextMenus)).

(** What the tree builder keeps true of its objects: every object sits at
    exactly one place, in [root] or in one [submenu] array; the index names
    objects of the store; every object can be reached from [root]; and an
    object sits only in the [submenu] of an object created before it. *)
Record tree_inv (st : TreeState) : Prop := {
  inv_places : root st ++ submenu_entries (store st) ≡ₚ seq 0 (length (store st));
  inv_index : forall id r, index st !! id = Some r -> r < length (store st);
  inv_reachable : forall r, r < length (store st) -> reachable st r;
  inv_order : forall p c rs r,
      store st !! p = Some c -> cell_submenu c = Some rs -> r ∈ rs ->
      p < r < length (store st)
}.

(** ** Debug flags *)

(** The values a debug flag can hold. *)
Inductive JSValue :=
  | VUndefined
  | VNull
  | VBool (b : bool)
  | VNumber (n : Z)
  | VString (s : jsstring).

#[global] Instance JSValue_eq_dec : EqDecision JSValue.
Proof. solve_decision. Defined.



Module DebugFlags.




End DebugFlags.

(** ** More vocabulary *)

(** The items of all sections, in order. *)
Definition all_items (sections : list MenuSection) : list MenuItem :=
  concat (default [] <$> sections).

Definition not_separator (i : MenuItem) : bool := negb (is_separator i).

(** The fields of an item and of everything below it, the item first. *)
Fixpoint flatten_item (i : MenuItem) : list ItemFields :=
  match i with
  | Item f s =>
    f :: match s with
         | Some items => concat (List.map flatten_item items)
         | None => []
         end
  end.

Definition flatten_items (t : list MenuItem) : list ItemFields :=
  concat (List.map flatten_item t).

(** The object [r] and the objects below it in the store, [r] first,
    following the [submenu] arrays at most [fuel] levels down. *)
Fixpoint subtree (fuel : nat) (cells : list Cell) (r : nat) : list nat :=
  match fuel with
  | 0 => []
  | S fuel' =>
    match cells !! r with
    | None => []
    | Some c => r :: concat (List.map (subtree fuel' cells) (default [] (cell_submenu c)))
    end
  end.

(** The fields of the object [r]. *)
Definition fields_of (cells : list Cell) (r : nat) : ItemFields :=
  default no_fields (cell_fields <$> cells !! r).

(** A freshly rendered object. *)
Definition leaf (f : ItemFields) : Cell := {| cell_fields := f; cell_submenu := None |}.

(** Every object sits only in the [submenu] of an object created before
    it. *)
Definition ordered_store (cells : list Cell) : Prop :=
  forall p c rs r,
    cells !! p = Some c -> cell_submenu c = Some rs -> r ∈ rs -> p < r < length cells.

(** Walking down from the [root] array meets every object exactly once. *)
Definition flat_inv (st : TreeState) : Prop :=
  forall fuel,
    length (store st) < fuel ->
    concat (List.map (subtree fuel (store st)) (root st)) ≡ₚ seq 0 (length (store st)).

(** How many of the items are checked. *)
Definition count_checked (items : list MenuItem) : nat :=
  length (List.filter (fun i => bool_decide (checked (item_fields i) = Some true)) items).

(** The deferred callback finds the contents suitable in the window state
    [w]: none of its three [return]s under 'Check we're suitable' is taken. *)
Definition suitable (w : Windows) (webContentsId : nat) : bool :=
  match rootWebContents w webContentsId with
  | None => false
  | Some rootContents =>
    match browserWindowFromWebContents w rootContents with
    | None => false
    | Some browserWindow => negb (rootHasNoContextMenu w browserWindow webContentsId)
    end
  end.

(** The contents was reported as created, by either event. *)
Definition created (webContentsId : nat) (evs : list Event) : Prop :=
  WebContentsCreated webContentsId ∈ evs \/ BrowserWindowCreated webContentsId ∈ evs.

(** The window states in which the deferred callbacks of [evs] ran. *)
Definition window_states (evs : list Event) : list Windows :=
  omap (fun e => match e with Immediate w => Some w | _ => None end) evs.

(** ** Sample inputs *)

Module Sample.

(** Every contents is its own root and sits in window 1. *)
Definition attached : Windows :=
  {| rootWebContents := fun i => Some i;
     browserWindowFromWebContents := fun _ => Some 1;
     waveboxWindowFromBrowserWindow :=
       fun _ => Some {| rootWebContentsHasContextMenu := true; rootWebContentsId := 0 |};
     waveboxWindowFromTabId :=
       fun _ => Some {| rootWebContentsHasContextMenu := true; rootWebContentsId := 0 |};
     tabMetaInfo := fun _ => None |}.

Definition spellchecker : SpellcheckerService :=
  {| spellSuggestionsSync := fun _ => {| primary := None; secondary := None |};
     getInstalledDictionaries := [lit "en_US"];
     primaryLanguage := lit "en_US";
     getHumanizedLanguageName := fun l => l |}.

(** An autofill service whose lookup settles as [lookup]. *)
Definition autofill (lookup : Settled (list Credential)) : AutofillService :=
  {| isAvailable := true;
     isValidAutofillUrl := fun _ => true;
     findCredentials := fun _ => lookup |}.

Definition env (lookup : Settled (list Credential))
    (menus : list (jsstring * ExtensionContextMenus)) : Env :=
  {| platform := lit "linux";
     windows := attached;
     accountState :=
       {| mailboxes := []; services := [];
          resolvedMailboxDisplayName := fun i => i;
          resolvedServiceDisplayName := fun i => i |};
     showCtxMenuAdvancedLinkOptions := false;
     spellcheckerService := spellchecker;
     autofillService := autofill lookup;
     AUTOFILL_MENU := lit "data:image/png;base64,";
     encodeURIComponent := fun s => s;
     runtimeContextMenuData := menus |}.

Definition edit_flags : EditFlags :=
  {| canUndo := false; canRedo := false; canCut := false; canCopy := true;
     canPaste := true; canSelectAll := true |}.

(** A right click with the given link, selection and field. *)
Definition params (link selection : jsstring) (editable : bool) (field : jsstring) : Params :=
  {| linkURL := link; selectionText := selection; isEditable := editable;
     misspelledWord := []; editFlags := edit_flags; mediaType := lit "none";
     srcURL := []; pageURL := lit "https://x.com/login"; frameURL := [];
     inputFieldType := field; params_x := 10; params_y := 20 |}.

Definition password_params : Params := params [] [] true (lit "password").

(** Web contents 7 showing [url]. *)
Definition contents (url : jsstring) : WebContents :=
  {| contents_id := 7; getURL := url; isDestroyed := false;
     sessionIsDefault := false; canGoBack := true; canGoForward := false |}.

Definition credential : Credential :=
  {| account := lit "user@x.com"; password := lit "hunter2" |}.

(** An extension context menu. *)
Definition menu (id : jsstring) (parent : option jsstring) (kind : jsstring)
    (contexts : list jsstring) : CRExtensionRTContextMenu :=
  {| cm_id := id; cm_parentId := parent; cm_title := id; cm_type := kind;
     cm_enabled := true; cm_checked := false; cm_contexts := contexts |}.

Definition extension (menus : list CRExtensionRTContextMenu) : ExtensionContextMenus :=
  {| ext_name := lit "Sample extension"; ext_icon16 := Some (lit "icon16.png");
     contextMenus := menus |}.

(** Contents 7 is reported as created and again with its window, and
    then both deferred callbacks run. *)
Definition created_twice : list Event :=
  [WebContentsCreated 7; BrowserWindowCreated 7; Immediate attached; Immediate attached].

Definition page_click : Params := params [] [] false [].

(** Three nodes of one extension; the first names the second as its
    parent. *)
Definition child_first : list CRExtensionRTContextMenu :=
  [menu (lit "child") (Some (lit "parent")) ITEM_TYPES.NORMAL [CONTEXT_TYPES.ALL];
   menu (lit "parent") None ITEM_TYPES.NORMAL [CONTEXT_TYPES.ALL];
   menu (lit "other") (Some (lit "parent")) ITEM_TYPES.CHECKBOX [CONTEXT_TYPES.ALL]].

(** Three nodes again; the second names the third as its parent. *)
Definition child_second : list CRExtensionRTContextMenu :=
  [menu (lit "first") None ITEM_TYPES.NORMAL [CONTEXT_TYPES.ALL];
   menu (lit "child") (Some (lit "parent")) ITEM_TYPES.NORMAL [CONTEXT_TYPES.ALL];
   menu (lit "parent") None ITEM_TYPES.NORMAL [CONTEXT_TYPES.ALL]].

(** A node that is visible on pages only. *)
Definition page_only : CRExtensionRTContextMenu :=
  menu (lit "save-page") None ITEM_TYPES.NORMAL [CONTEXT_TYPES.PAGE].

(** The sample environment with a second dictionary installed. *)
Definition two_dictionaries : Env :=
  {| platform := lit "darwin";
     windows := attached;
     accountState := accountState (env Rejected []);
     showCtxMenuAdvancedLinkOptions := false;
     spellcheckerService :=
       {| spellSuggestionsSync := fun _ => {| primary := None; secondary := None |};
          getInstalledDictionaries := [lit "en_US"; lit "de_DE"];
          primaryLanguage := lit "de_DE";
          getHumanizedLanguageName := fun l => l |};
     autofillService := autofill Rejected;
     AUTOFILL_MENU := lit "data:image/png;base64,";
     encodeURIComponent := fun s => s;
     runtimeContextMenuData := [] |}.

(** No contents resolves to a root contents. *)
Definition detached : Windows :=
  {| rootWebContents := fun _ => None;
     browserWindowFromWebContents := fun _ => Some 1;
     waveboxWindowFromBrowserWindow := fun _ => None;
     waveboxWindowFromTabId := fun _ => None;
     tabMetaInfo := fun _ => None |}.


(** An extension with the three nodes of [child_first]. *)
Definition nested : list (jsstring * ExtensionContextMenus) :=
  [(lit "ext", extension child_first)].

(** An extension whose only node is a separator. *)
Definition separator_only : list (jsstring * ExtensionContextMenus) :=
  [(lit "ext", extension [menu (lit "line") None ITEM_TYPES.SEPERATOR [CONTEXT_TYPES.ALL]])].

End Sample.

(** * Properties *)

(** ** The section aggregator *)

Section Aggregator.

Implicit Types (t s : list MenuItem) (ss : list (list MenuItem)).
Implicit Types (sections : list MenuSection).

Lemma slice_0_m1_snoc {A} (l : list A) (x : A) : slice_0_m1 (l ++ [x]) = l.
Proof.
  unfold slice_0_m1. rewrite length_app. simpl.
  apply take_app_length'. lia.
Qed.

Lemma slice_0_m1_app {A} (l k : list A) :
  k ≠ [] -> slice_0_m1 (l ++ k) = l ++ slice_0_m1 k.
Proof.
  intros Hk. unfold slice_0_m1. rewrite length_app.
  destruct k as [|x k]; [done|]. simpl.
  rewrite take_app_ge by lia. f_equal. f_equal. lia.
Qed.

(** The accumulator of the [reduce]: every non-empty section followed by
    one separator. *)
Lemma reduce_sections sections acc :
  foldl (fun acc section =>
           match section with
           | Some ((_ :: _) as s) => acc ++ s ++ [separator]
           | Some [] | None => acc
           end) acc sections
  = acc ++ concat ((fun s => s ++ [separator]) <$> non_empty_sections sections).
Proof.
  revert acc. induction sections as [|[[|i s]|] sections IH]; intros acc; simpl.
  - by rewrite app_nil_r.
  - apply IH.
  - rewrite IH. unfold non_empty_sections. simpl. rewrite <- !app_assoc. simpl. by rewrite <- !app_assoc.
  - apply IH.
Qed.

Lemma non_empty_sections_non_empty sections s :
  s ∈ non_empty_sections sections -> s ≠ [].
Proof.
  unfold non_empty_sections. rewrite list_elem_of_omap.
  intros ([[|i s']|] & _ & Heq); simpl in Heq; [done| |done]. injection Heq as <-. done.
Qed.

Lemma slice_concat_join ss :
  Forall (fun s => s ≠ []) ss ->
  slice_0_m1 (concat ((fun s => s ++ [separator]) <$> ss)) = join_sections ss.
Proof.
  induction 1 as [|s ss Hs Hss IH]; [done|].
  simpl. destruct ss as [|s' ss].
  - simpl. rewrite app_nil_r. apply slice_0_m1_snoc.
  - rewrite <- app_assoc. rewrite slice_0_m1_app.
    + f_equal. rewrite slice_0_m1_app; [|by destruct s'].
      simpl. f_equal. apply IH.
    + by destruct s.
Qed.

Lemma convertSectionsToTemplate_join sections :
  convertSectionsToTemplate sections = join_sections (non_empty_sections sections).
Proof.
  unfold convertSectionsToTemplate. rewrite reduce_sections. simpl.
  apply slice_concat_join, Forall_forall.
  intros s Hs. by eapply non_empty_sections_non_empty.
Qed.

Lemma starts_with_separator_app t s :
  t ≠ [] -> starts_with_separator (t ++ s) = starts_with_separator t.
Proof. by destruct t. Qed.

Lemma ends_with_separator_app t s :
  s ≠ [] -> ends_with_separator (t ++ s) = ends_with_separator s.
Proof.
  intros Hs. unfold ends_with_separator. rewrite last_app.
  destruct (last s) eqn:E; [done|]. by apply last_None in E.
Qed.

Lemma ends_with_separator_cons i s :
  s ≠ [] -> ends_with_separator (i :: s) = ends_with_separator s.
Proof. intros Hs. by apply (ends_with_separator_app [i]). Qed.

Lemma has_consecutive_separators_app t s :
  t ≠ [] ->
  has_consecutive_separators (t ++ s)
  = has_consecutive_separators t
    || (ends_with_separator t && starts_with_separator s)
    || has_consecutive_separators s.
Proof.
  induction t as [|i t IH]; [done|]. intros _.
  destruct t as [|j t].
  - simpl. unfold ends_with_separator. simpl.
    by rewrite andb_false_r.
  - rewrite ends_with_separator_cons by done.
    change ((i :: j :: t) ++ s) with (i :: ((j :: t) ++ s)).
    cbn [has_consecutive_separators].
    rewrite IH by done.
    rewrite starts_with_separator_app by done.
    cbn [starts_with_separator has_consecutive_separators].
    destruct (is_separator i), (is_separator j), (starts_with_separator t),
      (has_consecutive_separators t), (ends_with_separator (j :: t)),
      (starts_with_separator s), (has_consecutive_separators s); done.
Qed.

End Aggregator.

Section AggregatorClaims.

Implicit Types (t s : list MenuItem) (ss : list (list MenuItem)).
Implicit Types (sections : list MenuSection).

Lemma join_sections_non_empty ss :
  Forall (fun s => s ≠ []) ss -> ss ≠ [] -> join_sections ss ≠ [].
Proof.
  intros Hss Hne. destruct Hss as [|s ss Hs Hss]; [done|].
  simpl. destruct ss; [done|]. by destruct s.
Qed.

Lemma join_sections_well_separated ss :
  Forall (fun s => s ≠ []) ss ->
  Forall (fun s => well_separated s = true) ss ->
  well_separated (join_sections ss) = true.
Proof.
  induction 1 as [|s ss Hs Hss IH]; [done|].
  intros Hws. apply Forall_cons in Hws as [Hw Hws].
  specialize (IH Hws). simpl. destruct ss as [|s' ss]; [done|].
  pose proof (join_sections_non_empty (s' :: ss) Hss ltac:(done)) as Hne.
  set (r := join_sections (s' :: ss)) in *.
  unfold well_separated in *.
  apply andb_true_iff in Hw as [Hw Hw3]. apply andb_true_iff in Hw as [Hw1 Hw2].
  apply andb_true_iff in IH as [IH IH3]. apply andb_true_iff in IH as [IH1 IH2].
  rewrite starts_with_separator_app by done.
  rewrite ends_with_separator_app by done.
  rewrite ends_with_separator_cons by done.
  rewrite has_consecutive_separators_app by done.
  cbn [has_consecutive_separators starts_with_separator].
  destruct (starts_with_separator s), (ends_with_separator s),
    (has_consecutive_separators s), (starts_with_separator r),
    (ends_with_separator r), (has_consecutive_separators r); done.
Qed.

(** C2, as the spec states it, fails: the aggregator copies a section as
    it is. A section that is a lone separator gives a template that starts
    and ends with a separator; and a whole launch on a page where an
    extension registered a separator as its only node presents a template
    with separators in a row, since the extension section is that separator
    and the aggregator puts its own before and after it. *)
Lemma convertSectionsToTemplate_lone_separator :
  convertSectionsToTemplate [Some []; Some [separator]; None] = [separator]
  /\ starts_with_separator (convertSectionsToTemplate [Some []; Some [separator]; None]) = true
  /\ ends_with_separator (convertSectionsToTemplate [Some []; Some [separator]; None]) = true
  /\ (has_consecutive_separators ∘ popup_template)
       <$> (launchMenu (Sample.env Rejected Sample.separator_only)
              (Sample.contents (lit "https://x.com/"))
              (Sample.contents (lit "https://x.com/")) Sample.page_click []).1
     = [true].
Proof. repeat split; vm_compute; reflexivity. Qed.

(** C2 (amended). For every list of sections the template is the non-empty
    sections in their order with exactly one separator between each two
    neighbours and none before the first or after the last; so whenever
    no section itself starts or ends with a separator or holds two in a
    row, the template has no separator first, none last and no two in a
    row, whichever sections are empty. *)
Theorem convertSectionsToTemplate_separators sections :
  convertSectionsToTemplate sections = join_sections (non_empty_sections sections)
  /\ ((forall s, Some s ∈ sections -> well_separated s = true) ->
      well_separated (convertSectionsToTemplate sections) = true).
Proof.
  split; [apply convertSectionsToTemplate_join|].
  intros Hws. rewrite convertSectionsToTemplate_join.
  apply join_sections_well_separated; apply Forall_forall; intros s Hs.
  - by eapply non_empty_sections_non_empty.
  - apply Hws. unfold non_empty_sections in Hs.
    apply list_elem_of_omap in Hs as ([[|i s']|] & Hin & Heq); simpl in Heq; [done| |done].
    by injection Heq as <-.
Qed.

Lemma convertSectionsToTemplate_separators_witness :
  well_separated
    (convertSectionsToTemplate
       [Some [label_item (lit "Undo")]; Some []; None;
        Some [label_item (lit "Cut"); separator; label_item (lit "Copy")]]) = true.
Proof.
  apply (convertSectionsToTemplate_separators
           [Some [label_item (lit "Undo")]; Some []; None;
            Some [label_item (lit "Cut"); separator; label_item (lit "Copy")]]).
  intros s Hs. repeat (apply elem_of_cons in Hs as [Hs|Hs]; [by simplify_eq|]).
  by apply elem_of_nil in Hs.
Defined.

End AggregatorClaims.

(** ** Launching the menu *)

Section Launch.

Variables (env : Env) (contents settled : WebContents) (params : Params).

Lemma non_empty_sections_app (l k : list MenuSection) :
  non_empty_sections (l ++ k) = non_empty_sections l ++ non_empty_sections k.
Proof. apply omap_app. Qed.

Lemma convertSectionsToTemplate_skip (before after : list MenuSection) (section : MenuSection) :
  section = None \/ section = Some [] ->
  convertSectionsToTemplate (before ++ section :: after)
  = convertSectionsToTemplate (before ++ after).
Proof.
  intros Hs. rewrite !convertSectionsToTemplate_join, !non_empty_sections_app.
  by destruct Hs as [-> | ->].
Qed.

Lemma launchMenu_started rootContents browserWindow :
  rootWebContents (windows env) (contents_id contents) = Some rootContents ->
  browserWindowFromWebContents (windows env) rootContents = Some browserWindow ->
  lookup_started env contents params ->
  launchMenu env contents settled params
  = async_catch
      (async_then
         (async_of (findCredentials (autofillService env) (getURL contents)))
         (fun credentials =>
            presentMenu browserWindow
              ([renderAutofillSection env settled params credentials]
               ++ launchMenu_sections env contents params)))
      (presentMenu browserWindow (launchMenu_sections env contents params)).
Proof.
  intros Hroot Hwin (Ha & Hv & Hf). unfold launchMenu.
  by rewrite Hroot, Hwin, Ha, Hv, Hf.
Qed.

(** Whatever the lookup does, a launch that finds its window presents one
    menu and ends without an error. *)
Lemma launchMenu_presents_once rootContents browserWindow ui :
  rootWebContents (windows env) (contents_id contents) = Some rootContents ->
  browserWindowFromWebContents (windows env) rootContents = Some browserWindow ->
  exists template,
    launchMenu env contents settled params ui
    = (ui ++ [{| popup_window := browserWindow; popup_template := template |}],
       Fulfilled tt).
Proof.
  intros Hroot Hwin. unfold launchMenu. rewrite Hroot, Hwin.
  destruct (_ && _); [|by eexists].
  unfold async_catch, async_then, async_of, presentMenu.
  destruct (findCredentials _ _); by eexists.
Qed.

(** C3. When the credential lookup was started and rejects, the launch
    presents exactly one menu, on the window of the sender; its template is
    the composition of the nine synchronous sections and of nothing else;
    and the launch ends without an error. *)
Theorem launchMenu_lookup_rejected rootContents browserWindow ui :
  rootWebContents (windows env) (contents_id contents) = Some rootContents ->
  browserWindowFromWebContents (windows env) rootContents = Some browserWindow ->
  lookup_started env contents params ->
  findCredentials (autofillService env) (getURL contents) = Rejected ->
  launchMenu env contents settled params ui
  = (ui ++ [{| popup_window := browserWindow;
               popup_template :=
                 convertSectionsToTemplate (launchMenu_sections env contents params) |}],
     Fulfilled tt)
  /\ length (launchMenu_sections env contents params) = 9.
Proof.
  intros Hroot Hwin Hstarted Hrej. split; [|done].
  rewrite (launchMenu_started _ _ Hroot Hwin Hstarted).
  unfold async_catch, async_then, async_of. by rewrite Hrej.
Qed.

(** C10. An [undefined] entry of the sections list and an empty section
    are both the same to the aggregator as no entry at all; and when the
    lookup succeeds but [renderAutofillSection] returns [undefined], the
    one menu presented is the composition of the synchronous sections. *)
Theorem convertSectionsToTemplate_undefined_section :
  (forall before after : list MenuSection,
      convertSectionsToTemplate (before ++ None :: after)
      = convertSectionsToTemplate (before ++ Some [] :: after)
      /\ convertSectionsToTemplate (before ++ None :: after)
         = convertSectionsToTemplate (before ++ after))
  /\ (forall rootContents browserWindow credentials ui,
         rootWebContents (windows env) (contents_id contents) = Some rootContents ->
         browserWindowFromWebContents (windows env) rootContents = Some browserWindow ->
         lookup_started env contents params ->
         findCredentials (autofillService env) (getURL contents) = Fulfilled credentials ->
         renderAutofillSection env settled params credentials = None ->
         launchMenu env contents settled params ui
         = (ui ++ [{| popup_window := browserWindow;
                      popup_template :=
                        convertSectionsToTemplate
                          (launchMenu_sections env contents params) |}],
            Fulfilled tt)).
Proof.
  split.
  - intros before after.
    rewrite !(convertSectionsToTemplate_skip before after) by auto. done.
  - intros rootContents browserWindow credentials ui Hroot Hwin Hstarted Hok Hnone.
    rewrite (launchMenu_started _ _ Hroot Hwin Hstarted).
    unfold async_catch, async_then, async_of. rewrite Hok, Hnone.
    unfold presentMenu.
    change ([None] ++ launchMenu_sections env contents params)
      with ([] ++ None :: launchMenu_sections env contents params).
    by rewrite (convertSectionsToTemplate_skip [] _ None) by auto.
Qed.

End Launch.

Lemma launchMenu_lookup_rejected_witness :
  launchMenu (Sample.env Rejected []) (Sample.contents (lit "https://x.com/login"))
    (Sample.contents (lit "https://x.com/login")) Sample.password_params []
  = ([{| popup_window := 1;
         popup_template :=
           convertSectionsToTemplate
             (launchMenu_sections (Sample.env Rejected [])
                (Sample.contents (lit "https://x.com/login")) Sample.password_params) |}],
     Fulfilled tt)
  /\ length (launchMenu_sections (Sample.env Rejected [])
               (Sample.contents (lit "https://x.com/login")) Sample.password_params) = 9.
Proof.
  apply (launchMenu_lookup_rejected (Sample.env Rejected [])
           (Sample.contents (lit "https://x.com/login"))
           (Sample.contents (lit "https://x.com/login")) Sample.password_params 7 1 []).
  - reflexivity.
  - reflexivity.
  - repeat split; vm_compute; reflexivity.
  - reflexivity.
Defined.

Lemma convertSectionsToTemplate_undefined_section_witness :
  launchMenu (Sample.env (Fulfilled [Sample.credential]) [])
    (Sample.contents (lit "https://x.com/login"))
    (Sample.contents (lit "http://x.com/moved")) Sample.password_params []
  = ([{| popup_window := 1;
         popup_template :=
           convertSectionsToTemplate
             (launchMenu_sections (Sample.env (Fulfilled [Sample.credential]) [])
                (Sample.contents (lit "https://x.com/login")) Sample.password_params) |}],
     Fulfilled tt).
Proof.
  apply (proj2 (convertSectionsToTemplate_undefined_section
                  (Sample.env (Fulfilled [Sample.credential]) [])
                  (Sample.contents (lit "https://x.com/login"))
                  (Sample.contents (lit "http://x.com/moved")) Sample.password_params)
           7 1 [Sample.credential] []).
  - reflexivity.
  - reflexivity.
  - repeat split; vm_compute; reflexivity.
  - reflexivity.
  - vm_compute; reflexivity.
Defined.

(** ** Link and selection sections *)

Section Renderers.

Variables (env : Env) (contents : WebContents).

Lemma renderLookupAndSearchSection_items params :
  truthy (selectionText params) = true ->
  exists first,
    renderLookupAndSearchSection env contents params
    = first ++ search_and_translate env params (displayText params).
Proof.
  intros Hsel. unfold renderLookupAndSearchSection. rewrite Hsel. by eexists.
Qed.

Lemma length_truthy (s : jsstring) : 0 < length s -> truthy s = true.
Proof. destruct s; simpl; [lia|done]. Qed.

(** C8. A selection of exactly 50 code units is shown in the labels of the
    search and translate items as its first 47 code units followed by an
    ellipsis; a selection of 49 code units is shown whole. The actions use
    the whole selection in both cases. *)
Theorem renderLookupAndSearchSection_display params :
  (length (selectionText params) = 50 ->
   exists first,
     renderLookupAndSearchSection env contents params
     = first ++ search_and_translate env params
                  (take 47 (selectionText params) ++ ellipsis))
  /\ (length (selectionText params) = 49 ->
      exists first,
        renderLookupAndSearchSection env contents params
        = first ++ search_and_translate env params (selectionText params)).
Proof.
  split; intros Hlen.
  - destruct (renderLookupAndSearchSection_items params) as [first ->].
    { apply length_truthy. lia. }
    exists first. unfold displayText. rewrite Hlen. done.
  - destruct (renderLookupAndSearchSection_items params) as [first ->].
    { apply length_truthy. lia. }
    exists first. unfold displayText. rewrite Hlen. done.
Qed.

Lemma renderURLSection_copy params accountInfo :
  truthy (linkURL params) = true ->
  action_item (lit "Copy Link Address") (copyLinkAddress params)
  ∈ renderURLSection env contents params accountInfo false.
Proof.
  intros Hlink. unfold renderURLSection. rewrite Hlink. simpl.
  apply elem_of_cons. right.
  apply elem_of_app. right. apply elem_of_cons. by left.
Qed.

(** C9. 'Copy Link Address' is an item of the link section of a page that
    is not a Wavebox UI page; for the link [mailto:user@x.com] its action
    writes [user@x.com] to the clipboard, for
    [mailto:user@x.com?subject=hi] it writes the link unchanged, and so it
    does for every link that does not start with [mailto:]. *)
Theorem copyLinkAddress_mailto params accountInfo :
  (truthy (linkURL params) = true ->
   action_item (lit "Copy Link Address") (copyLinkAddress params)
   ∈ renderURLSection env contents params accountInfo false)
  /\ (linkURL params = lit "mailto:user@x.com" ->
      copyLinkAddress params = [ClipboardWriteText (lit "user@x.com")])
  /\ (linkURL params = lit "mailto:user@x.com?subject=hi" ->
      copyLinkAddress params = [ClipboardWriteText (lit "mailto:user@x.com?subject=hi")])
  /\ (startsWith (lit "mailto:") (linkURL params) = false ->
      copyLinkAddress params = [ClipboardWriteText (linkURL params)]).
Proof.
  split; [apply renderURLSection_copy|].
  unfold copyLinkAddress.
  split; [|split]; intros H; rewrite H; reflexivity.
Qed.

End Renderers.

Lemma renderLookupAndSearchSection_display_witness :
  (exists first,
      renderLookupAndSearchSection (Sample.env Rejected [])
        (Sample.contents (lit "https://x.com/"))
        (Sample.params [] (lit "The quick brown fox jumps over the lazy dog again.") false [])
      = first ++ search_and_translate (Sample.env Rejected [])
                   (Sample.params []
                      (lit "The quick brown fox jumps over the lazy dog again.") false [])
                   (lit "The quick brown fox jumps over the lazy dog aga" ++ ellipsis))
  /\ (exists first,
         renderLookupAndSearchSection (Sample.env Rejected [])
           (Sample.contents (lit "https://x.com/"))
           (Sample.params [] (lit "The quick brown fox jumps over the lazy dog again") false [])
         = first ++ search_and_translate (Sample.env Rejected [])
                      (Sample.params []
                         (lit "The quick brown fox jumps over the lazy dog again") false [])
                      (lit "The quick brown fox jumps over the lazy dog again")).
Proof.
  split.
  - apply (proj1 (renderLookupAndSearchSection_display (Sample.env Rejected [])
                    (Sample.contents (lit "https://x.com/"))
                    (Sample.params []
                       (lit "The quick brown fox jumps over the lazy dog again.") false []))).
    reflexivity.
  - apply (proj2 (renderLookupAndSearchSection_display (Sample.env Rejected [])
                    (Sample.contents (lit "https://x.com/"))
                    (Sample.params []
                       (lit "The quick brown fox jumps over the lazy dog again") false []))).
    reflexivity.
Defined.

Lemma copyLinkAddress_mailto_witness :
  action_item (lit "Copy Link Address")
    (copyLinkAddress (Sample.params (lit "mailto:user@x.com") [] false []))
  ∈ renderURLSection (Sample.env Rejected []) (Sample.contents (lit "https://x.com/"))
      (Sample.params (lit "mailto:user@x.com") [] false []) None false
  /\ copyLinkAddress (Sample.params (lit "mailto:user@x.com") [] false [])
     = [ClipboardWriteText (lit "user@x.com")]
  /\ copyLinkAddress (Sample.params (lit "mailto:user@x.com?subject=hi") [] false [])
     = [ClipboardWriteText (lit "mailto:user@x.com?subject=hi")]
  /\ copyLinkAddress (Sample.params (lit "https://x.com/a?b=mailto:c") [] false [])
     = [ClipboardWriteText (lit "https://x.com/a?b=mailto:c")].
Proof.
  pose proof (copyLinkAddress_mailto (Sample.env Rejected [])
                (Sample.contents (lit "https://x.com/"))
                (Sample.params (lit "mailto:user@x.com") [] false []) None) as (H1 & H2 & _).
  pose proof (copyLinkAddress_mailto (Sample.env Rejected [])
                (Sample.contents (lit "https://x.com/"))
                (Sample.params (lit "mailto:user@x.com?subject=hi") [] false []) None)
    as (_ & _ & H3 & _).
  pose proof (copyLinkAddress_mailto (Sample.env Rejected [])
                (Sample.contents (lit "https://x.com/"))
                (Sample.params (lit "https://x.com/a?b=mailto:c") [] false []) None)
    as (_ & _ & _ & H4).
  split; [apply H1; reflexivity|].
  split; [apply H2; reflexivity|].
  split; [apply H3; reflexivity|].
  apply H4; reflexivity.
Defined.

(** ** Binding the menu to web contents *)

Section Binding.

Implicit Types (reg : Registry) (evs : list Event) (w : Windows).

Lemma listenersOf_snoc i j reg (cs : gset nat) (ds qs : list nat) (xs : gset nat) :
  listenersOf i {| privConnected := cs;
                   contextMenuListeners := contextMenuListeners reg ++ [j];
                   destroyedListeners := ds; destroyedContents := xs; immediates := qs |}
  = listenersOf i reg ++ (if bool_decide (j = i) then [j] else []).
Proof. unfold listenersOf. simpl. by rewrite List.filter_app. Qed.

Lemma bound_once_init : bound_once registry_init.
Proof. intros i. unfold listenersOf. simpl. set_solver. Qed.

Lemma bound_once_queue reg qs :
  bound_once reg ->
  bound_once {| privConnected := privConnected reg;
                contextMenuListeners := contextMenuListeners reg;
                destroyedListeners := destroyedListeners reg;
                destroyedContents := destroyedContents reg;
                immediates := qs |}.
Proof. intros H i. apply (H i). Qed.

Lemma bound_once_bind w i reg : bound_once reg -> bound_once (bindContextMenu w i reg).
Proof.
  intros Hinv. unfold bindContextMenu.
  case_bool_decide as Hd; [done|]. case_bool_decide as Hc; [done|].
  destruct (rootWebContents w i) as [rootContents|]; [|done].
  destruct (browserWindowFromWebContents w rootContents) as [browserWindow|]; [|done].
  destruct (rootHasNoContextMenu w browserWindow i); [done|].
  intros j. rewrite listenersOf_snoc. rewrite length_app. simpl.
  destruct (Hinv j) as (H1 & H0 & Hle).
  case_bool_decide as Hij.
  - subst j. rewrite (H0 Hc Hd). simpl. set_solver.
  - simpl. rewrite Nat.add_0_r. repeat split; [|set_solver|done].
    intros [Hin%elem_of_singleton|Hin]%elem_of_union; [congruence|by apply H1].
Qed.

Lemma bound_once_destroy i reg : bound_once reg -> bound_once (destroyContents i reg).
Proof.
  intros Hinv j. destruct (Hinv j) as (H1 & H0 & Hle).
  unfold destroyContents, listenersOf in *. simpl.
  repeat split; [| |done].
  - case_bool_decide; [intros [Hin _]%elem_of_difference|intros Hin]; by apply H1.
  - intros Hc Hd. apply H0; [|set_solver].
    case_bool_decide; [|done]. set_solver.
Qed.

Lemma bound_once_step reg e : bound_once reg -> bound_once (step reg e).
Proof.
  intros Hinv. destruct e as [i|i|w|i]; simpl.
  - by apply bound_once_queue.
  - by apply bound_once_queue.
  - unfold runImmediate. destruct (immediates reg) as [|i rest]; [done|].
    by apply bound_once_bind, bound_once_queue.
  - by apply bound_once_destroy.
Qed.

Lemma bound_once_run evs : bound_once (run evs).
Proof.
  unfold run. induction evs as [|e evs IH] using rev_ind.
  - apply bound_once_init.
  - rewrite foldl_app. simpl. by apply bound_once_step.
Qed.

(** A contents that carries a listener is connected or destroyed, so the
    deferred callback returns at one of its first two tests. *)
Lemma bindContextMenu_bound w i reg :
  bound_once reg -> length (listenersOf i reg) = 1 -> bindContextMenu w i reg = reg.
Proof.
  intros Hinv Hone. destruct (Hinv i) as (_ & H0 & _).
  unfold bindContextMenu.
  case_bool_decide as Hd; [done|]. case_bool_decide as Hc; [done|].
  specialize (H0 Hc Hd). lia.
Qed.

(** C7. After any sequence of creation events, deferred callbacks and
    destructions, no web contents carries more than one [context-menu]
    listener; once a contents carries one, the deferred callback of every
    later creation event for it changes nothing; and a connected contents
    carries exactly one listener, so that one [context-menu] event on it
    presents exactly one menu when its window can be found. *)
Theorem context_menu_bound_once evs webContentsId :
  length (listenersOf webContentsId (run evs)) <= 1
  /\ (length (listenersOf webContentsId (run evs)) = 1 ->
      forall w, bindContextMenu w webContentsId (run evs) = run evs)
  /\ (webContentsId ∈ privConnected (run evs) ->
      length (listenersOf webContentsId (run evs)) = 1
      /\ forall env contents settled params rootContents browserWindow,
          contents_id contents = webContentsId ->
          rootWebContents (windows env) webContentsId = Some rootContents ->
          browserWindowFromWebContents (windows env) rootContents = Some browserWindow ->
          length (emitContextMenu env (run evs) contents settled params) = 1).
Proof.
  pose proof (bound_once_run evs) as Hinv.
  destruct (Hinv webContentsId) as (H1 & _ & Hle).
  split; [done|]. split.
  - intros Hone w. by apply bindContextMenu_bound.
  - intros Hc. split; [by apply H1|].
    intros env contents settled params rootContents browserWindow Hid Hroot Hwin.
    unfold emitContextMenu. rewrite Hid.
    specialize (H1 Hc).
    destruct (listenersOf webContentsId (run evs)) as [|l [|l' ls]]; simpl in H1; try lia.
    simpl. rewrite <- Hid in Hroot.
    destruct (launchMenu_presents_once env contents settled params
                rootContents browserWindow [] Hroot Hwin) as [template ->].
    done.
Qed.

End Binding.

Lemma context_menu_bound_once_witness :
  length (listenersOf 7 (run Sample.created_twice)) = 1
  /\ bindContextMenu Sample.attached 7 (run Sample.created_twice) = run Sample.created_twice
  /\ length (emitContextMenu (Sample.env Rejected []) (run Sample.created_twice)
               (Sample.contents (lit "https://x.com/login"))
               (Sample.contents (lit "https://x.com/login")) Sample.password_params) = 1.
Proof.
  destruct (context_menu_bound_once Sample.created_twice 7) as (_ & Hnoop & Hconn).
  assert (7 ∈ privConnected (run Sample.created_twice)) as Hin.
  { apply (bool_decide_unpack (7 ∈ privConnected (run Sample.created_twice))).
    vm_compute. exact I. }
  destruct (Hconn Hin) as [Hone Hemit].
  split; [exact Hone|]. split.
  - apply Hnoop. vm_compute. reflexivity.
  - apply (Hemit (Sample.env Rejected []) (Sample.contents (lit "https://x.com/login"))
             (Sample.contents (lit "https://x.com/login")) Sample.password_params 7 1);
      reflexivity.
Defined.

(** ** The extension menu tree *)

Section Tree.

Variables (contents : WebContents) (params : Params) (extensionId : jsstring).

Abbreviation render := (renderExtensionMenuItem contents params extensionId).
Abbreviation tstep := (tree_step contents params extensionId).

Lemma submenu_entries_app (l k : list Cell) :
  submenu_entries (l ++ k) = submenu_entries l ++ submenu_entries k.
Proof. unfold submenu_entries. by rewrite fmap_app, concat_app. Qed.

Lemma submenu_entries_new (cells : list Cell) (f : ItemFields) :
  submenu_entries (cells ++ [{| cell_fields := f; cell_submenu := None |}])
  = submenu_entries cells.
Proof. rewrite submenu_entries_app. unfold submenu_entries at 2. simpl. by rewrite app_nil_r. Qed.

Lemma submenu_entries_push (cells : list Cell) (p r : nat) :
  p < length cells ->
  submenu_entries (alter (push_submenu r) p cells) ≡ₚ r :: submenu_entries cells.
Proof.
  revert p. induction cells as [|c cells IH]; intros p Hp; simpl in Hp; [lia|].
  destruct p as [|p].
  - unfold submenu_entries. simpl. rewrite <- app_assoc. simpl.
    by rewrite <- Permutation_middle.
  - change (alter (push_submenu r) (S p) (c :: cells))
      with (c :: alter (push_submenu r) p cells).
    change (submenu_entries (c :: ?l)) with (default [] (cell_submenu c) ++ submenu_entries l).
    rewrite IH by lia. by rewrite <- Permutation_middle.
Qed.

Lemma elem_of_submenu_entries (cells : list Cell) (r : nat) :
  r ∈ submenu_entries cells <->
  exists p c rs, cells !! p = Some c /\ cell_submenu c = Some rs /\ r ∈ rs.
Proof.
  unfold submenu_entries. rewrite list_elem_of_In, in_concat.
  setoid_rewrite <- list_elem_of_In. split.
  - intros (rs & Hrs & Hr). apply list_elem_of_fmap in Hrs as (c & -> & Hc).
    apply list_elem_of_lookup in Hc as [p Hp].
    destruct (cell_submenu c) as [rs|] eqn:E; simpl in Hr; [|by apply elem_of_nil in Hr].
    by exists p, c, rs.
  - intros (p & c & rs & Hp & Hs & Hr). exists rs. split; [|done].
    apply list_elem_of_fmap. exists c. rewrite Hs. split; [done|].
    by eapply list_elem_of_lookup_2.
Qed.

Lemma lookup_parent_Some st menuItem p :
  lookup_parent st menuItem = Some p ->
  exists parentId,
    cm_parentId menuItem = Some parentId /\ truthy parentId = true
    /\ index st !! parentId = Some p.
Proof.
  unfold lookup_parent. destruct (cm_parentId menuItem) as [parentId|]; simpl; [|done].
  destruct (truthy parentId) eqn:E; [|done]. intros H. by exists parentId.
Qed.

(** Objects stay reachable when [root] and the [submenu] arrays only grow. *)
Lemma reachable_mono st st' :
  (forall r, r ∈ root st -> r ∈ root st') ->
  (forall p c rs, store st !! p = Some c -> cell_submenu c = Some rs ->
                  exists c' rs', store st' !! p = Some c' /\ cell_submenu c' = Some rs'
                                 /\ forall r, r ∈ rs -> r ∈ rs') ->
  forall r, reachable st r -> reachable st' r.
Proof.
  intros Hroot Hsub r Hr. induction Hr as [r Hr|p c rs r _ IH Hp Hs Hr].
  - by apply reachable_root, Hroot.
  - destruct (Hsub p c rs Hp Hs) as (c' & rs' & Hp' & Hs' & Hincl).
    eapply reachable_submenu; eauto.
Qed.

Lemma tree_inv_init : tree_inv tree_init.
Proof.
  split; simpl; [done|done|lia|done].
Qed.

(** A node attached at the root. *)
Lemma tree_inv_root st id f :
  tree_inv st ->
  tree_inv {| root := root st ++ [length (store st)];
              index := <[id := length (store st)]> (index st);
              store := store st ++ [{| cell_fields := f; cell_submenu := None |}] |}.
Proof.
  intros [Hplaces Hindex Hreach Horder].
  assert (forall r, reachable st r ->
                    reachable {| root := root st ++ [length (store st)];
                                 index := <[id := length (store st)]> (index st);
                                 store := store st
                                          ++ [{| cell_fields := f; cell_submenu := None |}] |} r)
    as Hmono.
  { apply reachable_mono; simpl.
    - intros r Hr. apply elem_of_app. by left.
    - intros p c rs Hp Hs. exists c, rs. split; [by apply lookup_app_l_Some|done]. }
  split; simpl; rewrite ?length_app; simpl.
  - rewrite submenu_entries_new, Nat.add_1_r, seq_S. simpl.
    rewrite <- Hplaces, <- !app_assoc. apply Permutation_app_head, Permutation_app_comm.
  - intros id' r [[_ <-]|[_ Hr]]%lookup_insert_Some; [lia|]. apply Hindex in Hr. lia.
  - intros r Hr. destruct (decide (r = length (store st))) as [->|Hne].
    + apply reachable_root. simpl. apply elem_of_app. right. by apply list_elem_of_singleton.
    + apply Hmono, Hreach. lia.
  - intros p c rs r Hp Hs Hr.
    apply lookup_app_Some in Hp as [Hp|[_ Hp]].
    + specialize (Horder p c rs r Hp Hs Hr). lia.
    + apply list_lookup_singleton_Some in Hp as [_ <-]. done.
Qed.

(** A node attached under a parent found in the index. *)
Lemma tree_inv_child st id f parent :
  tree_inv st ->
  parent < length (store st) ->
  tree_inv {| root := root st;
              index := <[id := length (store st)]> (index st);
              store := alter (push_submenu (length (store st))) parent
                         (store st ++ [{| cell_fields := f; cell_submenu := None |}]) |}.
Proof.
  intros [Hplaces Hindex Hreach Horder] Hparent.
  set (n := length (store st)) in *.
  set (cells := store st ++ [{| cell_fields := f; cell_submenu := None |}]).
  assert (length cells = S n) as Hlen.
  { unfold cells. rewrite length_app. simpl. lia. }
  destruct (lookup_lt_is_Some_2 (store st) parent Hparent) as [c0 Hc0].
  assert (cells !! parent = Some c0) as Hc0' by by apply lookup_app_l_Some.
  assert (forall r, reachable st r ->
                    reachable {| root := root st; index := <[id := n]> (index st);
                                 store := alter (push_submenu n) parent cells |} r)
    as Hmono.
  { apply reachable_mono; simpl; [done|].
    intros p c rs Hp Hs. destruct (decide (p = parent)) as [->|Hne].
    - rewrite Hc0 in Hp. injection Hp as <-.
      exists (push_submenu n c0), (rs ++ [n]).
      rewrite list_lookup_alter_eq, Hc0'. unfold push_submenu. simpl. rewrite Hs.
      split; [done|]. split; [done|]. intros r Hr. apply elem_of_app. by left.
    - exists c, rs. rewrite list_lookup_alter_ne by done.
      split; [by apply lookup_app_l_Some|done]. }
  split; simpl; rewrite ?length_alter, ?Hlen.
  - rewrite submenu_entries_push by (rewrite Hlen; lia).
    unfold cells. rewrite submenu_entries_new, seq_S. simpl.
    rewrite <- Hplaces. rewrite <- Permutation_middle.
    apply Permutation_cons_append.
  - intros id' r [[_ <-]|[_ Hr]]%lookup_insert_Some; [lia|]. apply Hindex in Hr. lia.
  - intros r Hr. destruct (decide (r = n)) as [->|Hne].
    + eapply (reachable_submenu _ parent (push_submenu n c0)).
      * apply Hmono, Hreach, Hparent.
      * simpl. by rewrite list_lookup_alter_eq, Hc0'.
      * reflexivity.
      * apply elem_of_app. right. by apply list_elem_of_singleton.
    + apply Hmono, Hreach. lia.
  - intros p c rs r Hp Hs Hr. destruct (decide (p = parent)) as [->|Hne].
    + rewrite list_lookup_alter_eq, Hc0' in Hp. injection Hp as <-.
      unfold push_submenu in Hs. simpl in Hs. injection Hs as <-.
      apply elem_of_app in Hr as [Hr|Hr%list_elem_of_singleton]; [|lia].
      destruct (cell_submenu c0) as [rs|] eqn:E; simpl in Hr; [|by apply elem_of_nil in Hr].
      specialize (Horder parent c0 rs r Hc0 E Hr). lia.
    + rewrite list_lookup_alter_ne in Hp by done.
      apply lookup_app_Some in Hp as [Hp|[_ Hp]].
      * specialize (Horder p c rs r Hp Hs Hr). lia.
      * apply list_lookup_singleton_Some in Hp as [_ <-]. done.
Qed.

Lemma tree_step_inv st menuItem : tree_inv st -> tree_inv (tstep st menuItem).
Proof.
  intros Hinv. unfold tree_step. destruct (render menuItem) as [f|]; [|done].
  destruct (lookup_parent st menuItem) as [parent|] eqn:Hparent.
  - apply tree_inv_child; [done|].
    apply lookup_parent_Some in Hparent as (parentId & _ & _ & Hp).
    by eapply inv_index.
  - by apply tree_inv_root.
Qed.

Lemma tree_run_inv st contextMenus : tree_inv st -> tree_inv (foldl tstep st contextMenus).
Proof.
  revert st. induction contextMenus as [|m ms IH]; intros st Hinv; [done|].
  simpl. by apply IH, tree_step_inv.
Qed.

Lemma renderExtensionMenuTree_state_inv contextMenus :
  tree_inv (renderExtensionMenuTree_state contents params extensionId contextMenus).
Proof. apply tree_run_inv, tree_inv_init. Qed.

(** C5. When the tree builder ends, every object the index names, and
    every object it rendered, can be reached from the returned [root]
    array through [submenu] arrays; and the [root] array and all [submenu]
    arrays together hold no object twice: none sits in two submenus, none
    both at the root and in a submenu. *)
Theorem renderExtensionMenuTree_placement contextMenus :
  (forall id r,
      index (renderExtensionMenuTree_state contents params extensionId contextMenus) !! id
      = Some r ->
      reachable (renderExtensionMenuTree_state contents params extensionId contextMenus) r)
  /\ (forall r,
        r < length (store (renderExtensionMenuTree_state contents params extensionId
                             contextMenus)) ->
        reachable (renderExtensionMenuTree_state contents params extensionId contextMenus) r)
  /\ NoDup (root (renderExtensionMenuTree_state contents params extensionId contextMenus)
            ++ submenu_entries
                 (store (renderExtensionMenuTree_state contents params extensionId
                           contextMenus))).
Proof.
  destruct (renderExtensionMenuTree_state_inv contextMenus)
    as [Hplaces Hindex Hreach _].
  split; [|split].
  - intros id r Hr. by eapply Hreach, Hindex.
  - done.
  - rewrite Hplaces. apply NoDup_seq.
Qed.

(** One object is created per rendered node. *)
Lemma tree_run_store_length st contextMenus :
  length (store (foldl tstep st contextMenus))
  = length (store st) + length (omap render contextMenus).
Proof.
  revert st. induction contextMenus as [|m ms IH]; intros st; simpl; [lia|].
  rewrite IH. unfold tree_step. destruct (render m) as [f|]; [|done].
  destruct (lookup_parent st m); simpl; rewrite ?length_alter, ?length_app; simpl;
    unfold omap; lia.
Qed.

Lemma tree_run_root_mono st contextMenus r :
  r ∈ root st -> r ∈ root (foldl tstep st contextMenus).
Proof.
  revert st. induction contextMenus as [|m ms IH]; intros st Hr; [done|].
  simpl. apply IH. unfold tree_step. destruct (render m) as [f|]; [|done].
  destruct (lookup_parent st m); simpl; [done|]. apply elem_of_app. by left.
Qed.

Lemma tree_run_root_length st contextMenus :
  length (root (foldl tstep st contextMenus)) <= length (root st) + length contextMenus.
Proof.
  revert st. induction contextMenus as [|m ms IH]; intros st; simpl; [lia|].
  etrans; [apply IH|]. unfold tree_step. destruct (render m) as [f|]; [|lia].
  destruct (lookup_parent st m); simpl; rewrite ?length_app; simpl; lia.
Qed.

(** The fields of an object are never written after its creation. *)
Lemma tree_run_fields st contextMenus r c :
  store st !! r = Some c ->
  cell_fields <$> store (foldl tstep st contextMenus) !! r = Some (cell_fields c).
Proof.
  revert st c. induction contextMenus as [|m ms IH]; intros st c Hr; simpl.
  { by rewrite Hr. }
  unfold tree_step. destruct (render m) as [f|]; [|by apply IH].
  pose proof (lookup_app_l_Some _ [{| cell_fields := f; cell_submenu := None |}] _ _ Hr)
    as Hr'.
  destruct (lookup_parent st m) as [parent|]; [|by apply IH].
  destruct (decide (parent = r)) as [->|Hne].
  - rewrite (IH _ (push_submenu (length (store st)) c)); [done|].
    simpl. by rewrite list_lookup_alter_eq, Hr'.
  - apply IH. simpl. by rewrite list_lookup_alter_ne.
Qed.

(** The index names only ids of rendered nodes. *)
Lemma tree_run_index st contextMenus id r :
  index (foldl tstep st contextMenus) !! id = Some r ->
  index st !! id = Some r
  \/ exists m, m ∈ contextMenus /\ is_Some (render m) /\ cm_id m = id.
Proof.
  revert st. induction contextMenus as [|m ms IH]; intros st Hr; [by left|].
  simpl in Hr. apply IH in Hr as [Hr|(m' & Hin & Hm')].
  - unfold tree_step in Hr. destruct (render m) as [f|] eqn:Hf; [|by left].
    assert (<[cm_id m := length (store st)]> (index st) !! id = Some r) as Hr'.
    { by destruct (lookup_parent st m). }
    apply lookup_insert_Some in Hr' as [[Hid _]|[_ Hr']]; [|by left].
    right. exists m. split; [by left|]. by rewrite Hf.
  - right. exists m'. split; [by right|done].
Qed.

(** C4. A rendered node whose [parentId] is the id of no rendered node
    before it in the input (the parent comes later, or is not rendered, or
    does not exist) is attached at the root: when the builder ends, its
    object is in the returned [root] array, in no [submenu] array, and
    carries the fields it was rendered with. In the three-node list
    [Sample.child_first], whose first node names the second as its parent,
    the returned root items are the child and the parent. *)
Theorem renderExtensionMenuTree_forward_parent before menuItem after fields :
  render menuItem = Some fields ->
  (forall parentId m,
      cm_parentId menuItem = Some parentId ->
      m ∈ before -> is_Some (render m) -> cm_id m ≠ parentId) ->
  (object_of contents params extensionId (before ++ menuItem :: after) (length before)
   ∈ root (renderExtensionMenuTree_state contents params extensionId
             (before ++ menuItem :: after))
   /\ (object_of contents params extensionId (before ++ menuItem :: after) (length before)
       ∉ submenu_entries
           (store (renderExtensionMenuTree_state contents params extensionId
                     (before ++ menuItem :: after))))
   /\ cell_fields
        <$> (store (renderExtensionMenuTree_state contents params extensionId
                      (before ++ menuItem :: after))
             !! (object_of contents params extensionId (before ++ menuItem :: after)
                   (length before)))
      = Some fields)
  /\ (label ∘ item_fields)
       <$> renderExtensionMenuTree contents params extensionId Sample.child_first
     = [Some (lit "child"); Some (lit "parent")].
Proof.
  intros Hf Hforward. split; [|reflexivity].
  pose proof (renderExtensionMenuTree_state_inv (before ++ menuItem :: after)) as Hinv.
  unfold object_of. rewrite take_app_length.
  unfold renderExtensionMenuTree_state in *. rewrite foldl_app in *. simpl in *.
  set (st := foldl tstep tree_init before) in *.
  assert (length (store st) = length (omap render before)) as Hlen.
  { unfold st. by rewrite tree_run_store_length. }
  assert (lookup_parent st menuItem = None) as Hnone.
  { destruct (lookup_parent st menuItem) as [p|] eqn:Hp; [|done]. exfalso.
    apply lookup_parent_Some in Hp as (parentId & Hpid & _ & Hidx).
    apply tree_run_index in Hidx as [Hidx|(m & Hin & Hm & Hid)]; [done|].
    by eapply Hforward. }
  assert (tstep st menuItem
          = {| root := root st ++ [length (store st)];
               index := <[cm_id menuItem := length (store st)]> (index st);
               store := store st ++ [{| cell_fields := fields; cell_submenu := None |}] |})
    as Hstep.
  { unfold tree_step. by rewrite Hf, Hnone. }
  rewrite Hstep in *. rewrite <- Hlen.
  set (st' := {| root := root st ++ [length (store st)];
                 index := <[cm_id menuItem := length (store st)]> (index st);
                 store := store st ++ [{| cell_fields := fields; cell_submenu := None |}] |})
    in *.
  assert (length (store st) ∈ root (foldl tstep st' after)) as Hroot.
  { apply tree_run_root_mono. simpl. apply elem_of_app. right.
    by apply list_elem_of_singleton. }
  split; [done|]. split.
  - pose proof (inv_places _ Hinv) as Hplaces.
    assert (NoDup (root (foldl tstep st' after)
                   ++ submenu_entries (store (foldl tstep st' after)))) as Hnodup.
    { rewrite Hplaces. apply NoDup_seq. }
    apply NoDup_app in Hnodup as (_ & Hdisj & _). by apply Hdisj.
  - apply (tree_run_fields st' after _ {| cell_fields := fields; cell_submenu := None |}).
    simpl. by apply list_lookup_middle.
Qed.

(** The fuel [renderExtensionMenuTree] reads the store with is enough:
    more fuel reads the same item. *)
Lemma resolve_enough st :
  tree_inv st ->
  forall fuel fuel' r,
    length (store st) - r < fuel -> length (store st) - r < fuel' ->
    resolve fuel (store st) r = resolve fuel' (store st) r.
Proof.
  intros Hinv. induction fuel as [|fuel IH]; intros fuel' r Hfuel Hfuel'; [lia|].
  destruct fuel' as [|fuel']; [lia|]. simpl.
  destruct (store st !! r) as [c|] eqn:Hr; [|done]. f_equal.
  destruct (cell_submenu c) as [rs|] eqn:Hs; [|done]. f_equal.
  apply List.map_ext_in. intros x Hx%list_elem_of_In.
  pose proof (inv_order _ Hinv r c rs x Hr Hs Hx).
  apply IH; lia.
Qed.

(** C6. What one extension adds to the extension section: when its
    rendered tree has exactly one top-level item, that item itself, with
    the extension's icon and under no further submenu; when its rendered
    tree has more than one top-level item, one submenu labelled with the
    extension's name that holds all of them. The section is the
    concatenation of what the extensions add. *)
Theorem renderExtension_grouping ext :
  (forall item,
      renderExtensionMenuTree contents params extensionId
        (List.filter (validContextMenu params) (contextMenus ext)) = [item] ->
      renderExtension contents params extensionId ext
      = [spread_under_icon (ImageFromPath (ext_icon16 ext)) item]
      /\ item_submenu (spread_under_icon (ImageFromPath (ext_icon16 ext)) item)
         = item_submenu item)
  /\ (1 < length (renderExtensionMenuTree contents params extensionId
                    (List.filter (validContextMenu params) (contextMenus ext))) ->
      renderExtension contents params extensionId ext
      = [with_icon (ImageFromPath (ext_icon16 ext))
           (submenu_item (ext_name ext)
              (renderExtensionMenuTree contents params extensionId
                 (List.filter (validContextMenu params) (contextMenus ext))))])
  /\ (forall env w,
        waveboxWindowFromTabId (windows env) (contents_id contents) = Some w ->
        renderExtensionSection env contents params
        = concat ((fun '(extensionId, ext) =>
                     renderExtension contents params extensionId ext)
                    <$> runtimeContextMenuData env)).
Proof.
  split; [|split].
  - intros item Hone. unfold renderExtension. rewrite Hone. split; [done|].
    unfold spread_under_icon. destruct (icon (item_fields item)); [done|].
    by destruct item.
  - intros Hmany. unfold renderExtension.
    set (valid := List.filter (validContextMenu params) (contextMenus ext)) in *.
    assert (1 < length valid) as Hvalid.
    { unfold renderExtensionMenuTree in Hmany. rewrite length_fmap in Hmany.
      pose proof (tree_run_root_length tree_init valid) as Hle. simpl in Hle.
      unfold renderExtensionMenuTree_state in Hmany. lia. }
    destruct (renderExtensionMenuTree contents params extensionId valid)
      as [|i [|j rest]]; simpl in Hmany; [lia|lia|].
    by rewrite bool_decide_eq_true_2.
  - intros env w Hw. unfold renderExtensionSection. rewrite Hw.
    generalize (runtimeContextMenuData env). intros exts.
    rewrite <- (app_nil_l (concat _)). generalize (@nil MenuItem).
    induction exts as [|[i e] exts IH]; intros acc; simpl.
    + by rewrite app_nil_r.
    + rewrite IH. by rewrite <- app_assoc.
Qed.

End Tree.

Lemma renderExtensionMenuTree_placement_witness :
  reachable
    (renderExtensionMenuTree_state (Sample.contents (lit "https://x.com/")) Sample.page_click
       (lit "ext") Sample.child_first) 1
  /\ reachable
       (renderExtensionMenuTree_state (Sample.contents (lit "https://x.com/")) Sample.page_click
          (lit "ext") Sample.child_first) 2.
Proof.
  destruct (renderExtensionMenuTree_placement (Sample.contents (lit "https://x.com/"))
              Sample.page_click (lit "ext") Sample.child_first) as (Hindex & Hall & _).
  split.
  - apply (Hindex (lit "parent")). vm_compute. reflexivity.
  - apply Hall. vm_compute. lia.
Defined.

Lemma renderExtensionMenuTree_forward_parent_witness :
  1 ∈ root (renderExtensionMenuTree_state (Sample.contents (lit "https://x.com/"))
              Sample.page_click (lit "ext") Sample.child_second)
  /\ 1 ∉ submenu_entries
           (store (renderExtensionMenuTree_state (Sample.contents (lit "https://x.com/"))
                     Sample.page_click (lit "ext") Sample.child_second)).
Proof.
  destruct (renderExtensionMenuTree_forward_parent
              (Sample.contents (lit "https://x.com/")) Sample.page_click (lit "ext")
              [Sample.menu (lit "first") None ITEM_TYPES.NORMAL [CONTEXT_TYPES.ALL]]
              (Sample.menu (lit "child") (Some (lit "parent")) ITEM_TYPES.NORMAL
                 [CONTEXT_TYPES.ALL])
              [Sample.menu (lit "parent") None ITEM_TYPES.NORMAL [CONTEXT_TYPES.ALL]]
              _ eq_refl) as [(Hroot & Hsub & _) _].
  - intros parentId m Hparent Hm _ Hid.
    apply list_elem_of_singleton in Hm. subst m.
    injection Hparent as <-. vm_compute in Hid. discriminate Hid.
  - split; [exact Hroot|exact Hsub].
Defined.

Lemma renderExtension_grouping_witness :
  length (renderExtension (Sample.contents (lit "https://x.com/")) Sample.page_click
            (lit "ext")
            (Sample.extension
               [Sample.menu (lit "only") None ITEM_TYPES.NORMAL [CONTEXT_TYPES.ALL]])) = 1
  /\ renderExtension (Sample.contents (lit "https://x.com/")) Sample.page_click (lit "ext")
       (Sample.extension Sample.child_first)
     = [with_icon (ImageFromPath (Some (lit "icon16.png")))
          (submenu_item (lit "Sample extension")
             (renderExtensionMenuTree (Sample.contents (lit "https://x.com/"))
                Sample.page_click (lit "ext") Sample.child_first))].
Proof.
  split.
  - destruct (renderExtension_grouping (Sample.contents (lit "https://x.com/"))
                Sample.page_click (lit "ext")
                (Sample.extension
                   [Sample.menu (lit "only") None ITEM_TYPES.NORMAL [CONTEXT_TYPES.ALL]]))
      as (Hone & _ & _).
    destruct (Hone _ eq_refl) as [-> _]. reflexivity.
  - destruct (renderExtension_grouping (Sample.contents (lit "https://x.com/"))
                Sample.page_click (lit "ext") (Sample.extension Sample.child_first))
      as (_ & Hmany & _).
    apply Hmany. vm_compute. lia.
Defined.

(** C1, on the code. The filter of [renderExtensionSection] asks the set of
    contexts for [ALL || PAGE], which is [ALL]: a node passes exactly when
    its contexts hold the all marker, or the click is in an editable field
    and they hold the editable marker. A node whose only context is the page
    marker does not pass, and an extension with that node alone adds nothing
    to the section. *)
Theorem validContextMenu_page_marker :
  (forall params menu,
      validContextMenu params menu = true <->
      CONTEXT_TYPES.ALL ∈ cm_contexts menu
      \/ (isEditable params = true /\ CONTEXT_TYPES.EDITABLE ∈ cm_contexts menu))
  /\ validContextMenu Sample.page_click Sample.page_only = false
  /\ renderExtensionSection
       (Sample.env Rejected [(lit "ext", Sample.extension [Sample.page_only])])
       (Sample.contents (lit "https://x.com/")) Sample.page_click = [].
Proof.
  split; [|split; vm_compute; reflexivity].
  intros params menu. unfold validContextMenu.
  change (or_ CONTEXT_TYPES.ALL CONTEXT_TYPES.PAGE) with CONTEXT_TYPES.ALL.
  rewrite <- !(elem_of_list_to_set (C := gset jsstring)).
  case_bool_decide as Hall; [by split; [left|]|].
  destruct (isEditable params); simpl.
  - case_bool_decide as Hed; split; try done.
    + by right.
    + intros [?|[_ ?]]; done.
  - split; [done|]. intros [?|[? _]]; done.
Qed.

(** * Further properties *)

(** ** The section aggregator, continued *)

Section AggregatorMore.

Implicit Types (t s : list MenuItem) (ss : list (list MenuItem)).
Implicit Types (sections : list MenuSection).

Lemma concat_non_empty_sections sections :
  concat (non_empty_sections sections) = all_items sections.
Proof.
  unfold all_items, non_empty_sections.
  induction sections as [|[[|i s]|] sections IH]; simpl; [done|done| |done].
  f_equal. f_equal. apply IH.
Qed.

Lemma non_empty_sections_Forall sections : Forall (fun s => s ≠ []) (non_empty_sections sections).
Proof. apply Forall_forall. intros s Hs. by eapply non_empty_sections_non_empty. Qed.

Lemma non_empty_sections_nil sections :
  non_empty_sections sections = [] <-> forall s, Some s ∈ sections -> s = [].
Proof.
  unfold non_empty_sections. induction sections as [|[[|i s]|] sections IH]; simpl.
  - split; [|done]. intros _ s Hs. by apply elem_of_nil in Hs.
  - rewrite IH. split.
    + intros H s [Hs|Hs]%elem_of_cons; [by injection Hs|by apply H].
    + intros H s Hs. apply H. by right.
  - split; [done|]. intros H. specialize (H (i :: s)). discriminate H. by left.
  - rewrite IH. split.
    + intros H s [Hs|Hs]%elem_of_cons; [done|by apply H].
    + intros H s Hs. apply H. by right.
Qed.

Lemma join_sections_cons s ss :
  ss ≠ [] -> join_sections (s :: ss) = s ++ separator :: join_sections ss.
Proof. by destruct ss. Qed.

Lemma join_sections_length ss :
  length (join_sections ss) = length (concat ss) + (length ss - 1).
Proof.
  induction ss as [|s ss IH]; [done|].
  destruct ss as [|s' ss].
  - simpl. rewrite app_nil_r. lia.
  - rewrite join_sections_cons by done.
    change (concat (s :: s' :: ss)) with (s ++ concat (s' :: ss)).
    rewrite !length_app. simpl in *. rewrite IH. rewrite !length_app. lia.
Qed.

Lemma join_sections_filter ss :
  List.filter not_separator (join_sections ss) = List.filter not_separator (concat ss).
Proof.
  induction ss as [|s ss IH]; [done|].
  destruct ss as [|s' ss].
  - simpl. by rewrite app_nil_r.
  - rewrite join_sections_cons by done.
    change (concat (s :: s' :: ss)) with (s ++ concat (s' :: ss)).
    rewrite !List.filter_app. f_equal.
    change (List.filter not_separator (separator :: ?l)) with (List.filter not_separator l).
    apply IH.
Qed.

Lemma join_sections_last ss s :
  Forall (fun s => s ≠ []) ss -> s ≠ [] -> last (join_sections (ss ++ [s])) = last s.
Proof.
  intros Hss Hs. induction Hss as [|s' ss Hs' Hss IH]; [done|].
  change ((s' :: ss) ++ [s]) with (s' :: (ss ++ [s])).
  rewrite join_sections_cons by by destruct ss.
  rewrite last_app, last_cons, IH.
  destruct (last s) eqn:E; [done|]. by apply last_None in E.
Qed.

(** X1. The template is empty exactly when no section holds an item: every
    entry of the sections list is [undefined] or an empty array. *)
Theorem convertSectionsToTemplate_nil_iff sections :
  convertSectionsToTemplate sections = [] <-> forall s, Some s ∈ sections -> s = [].
Proof.
  rewrite convertSectionsToTemplate_join, <- non_empty_sections_nil. split.
  - intros Hnil. destruct (non_empty_sections sections) as [|s ss] eqn:E; [done|].
    exfalso. eapply (join_sections_non_empty (s :: ss)); [|done|done].
    rewrite <- E. apply non_empty_sections_Forall.
  - by intros ->.
Qed.

(** X2. The template has one item per item of the sections, and one
    separator less than there are non-empty sections. *)
Theorem convertSectionsToTemplate_length sections :
  length (convertSectionsToTemplate sections)
  = length (all_items sections) + (length (non_empty_sections sections) - 1).
Proof.
  by rewrite convertSectionsToTemplate_join, join_sections_length, concat_non_empty_sections.
Qed.

(** X3. The aggregator drops no item, adds none but separators and keeps
    the order: without their separators, the template and the items of the
    sections taken in order are the same list. *)
Theorem convertSectionsToTemplate_items sections :
  List.filter not_separator (convertSectionsToTemplate sections)
  = List.filter not_separator (all_items sections).
Proof.
  by rewrite convertSectionsToTemplate_join, join_sections_filter, concat_non_empty_sections.
Qed.

(** A non-empty section in front of others: it is followed by a separator
    exactly when the others give a non-empty template. *)
Lemma convertSectionsToTemplate_cons s sections :
  s ≠ [] ->
  convertSectionsToTemplate (Some s :: sections)
  = match convertSectionsToTemplate sections with
    | [] => s
    | _ :: _ => s ++ separator :: convertSectionsToTemplate sections
    end.
Proof.
  intros Hs. rewrite !convertSectionsToTemplate_join.
  assert (non_empty_sections (Some s :: sections) = s :: non_empty_sections sections) as ->.
  { by destruct s. }
  pose proof (non_empty_sections_Forall sections) as Hne.
  destruct (non_empty_sections sections) as [|s' ss]; [done|].
  rewrite join_sections_cons by done.
  pose proof (join_sections_non_empty (s' :: ss) Hne ltac:(done)).
  by destruct (join_sections (s' :: ss)).
Qed.

(** The last item of the template is the last item of the last section,
    when that section is not empty. *)
Lemma convertSectionsToTemplate_last sections s :
  s ≠ [] -> last (convertSectionsToTemplate (sections ++ [Some s])) = last s.
Proof.
  intros Hs. rewrite convertSectionsToTemplate_join, non_empty_sections_app.
  assert (non_empty_sections [Some s] = [s]) as -> by by destruct s.
  apply join_sections_last; [apply non_empty_sections_Forall|done].
Qed.

End AggregatorMore.

Lemma convertSectionsToTemplate_nil_iff_witness :
  convertSectionsToTemplate [None; Some []; None] = [].
Proof.
  apply (convertSectionsToTemplate_nil_iff [None; Some []; None]).
  intros s Hs. repeat (apply elem_of_cons in Hs as [Hs|Hs]; [by simplify_eq|]).
  by apply elem_of_nil in Hs.
Defined.

(** ** Strings *)

Section Strings.

Implicit Types (p r s : jsstring) (c : N).

Lemma startsWith_app p s : startsWith p (p ++ s) = true.
Proof.
  induction p as [|a p IH]; [done|]. simpl.
  by rewrite bool_decide_eq_true_2, IH.
Qed.

Lemma startsWith_singleton_not_elem c s : c ∉ s -> startsWith [c] s = false.
Proof.
  destruct s as [|b s]; [done|]. intros Hc. simpl.
  rewrite bool_decide_eq_false_2; [done|]. intros ->. apply Hc. by left.
Qed.

(** [indexOf] of one code unit is [-1] exactly when the string does not
    hold it. *)
Lemma indexOf_from_singleton c s (i : Z) :
  (0 <= i)%Z ->
  (c ∉ s -> indexOf_from [c] s i = (-1)%Z)
  /\ (c ∈ s -> (i <= indexOf_from [c] s i)%Z).
Proof.
  revert i. induction s as [|b s IH]; intros i Hi.
  - split; [done|]. intros Hc. by apply elem_of_nil in Hc.
  - destruct (IH (i + 1)%Z ltac:(lia)) as [IHn IHy].
    cbn [indexOf_from startsWith]. case_bool_decide as Hcb; simpl.
    + split; [|lia]. intros Hc. exfalso. apply Hc. subst. by left.
    + split.
      * intros Hc. apply IHn. intros Hin. apply Hc. by right.
      * intros [Hc|Hc]%elem_of_cons; [done|]. specialize (IHy Hc). lia.
Qed.

Lemma replace_unfold p r s :
  replace p r s
  = if startsWith p s then r ++ drop (length p) s
    else match s with
         | [] => []
         | c :: s' => c :: replace p r s'
         end.
Proof. by destruct s. Qed.

(** Replacing a prefix by the empty string removes it. *)
Lemma replace_prefix p s : replace p [] (p ++ s) = s.
Proof. by rewrite replace_unfold, startsWith_app, drop_app_length. Qed.

End Strings.

(** ** Link and selection sections, continued *)

(** X4. 'Copy Link Address' on any link [mailto:] followed by an address
    without a question mark writes the address alone to the clipboard; on
    any link that holds a question mark it writes the link unchanged. *)
Theorem copyLinkAddress_any_mailto params :
  (forall address,
      linkURL params = lit "mailto:" ++ address ->
      63%N ∉ address ->
      copyLinkAddress params = [ClipboardWriteText address])
  /\ (63%N ∈ linkURL params ->
      copyLinkAddress params = [ClipboardWriteText (linkURL params)]).
Proof.
  unfold copyLinkAddress, indexOf. change (lit "?") with [63%N]. split.
  - intros address -> Hq.
    destruct (indexOf_from_singleton 63%N (lit "mailto:" ++ address) 0 ltac:(lia)) as [-> _].
    + by rewrite startsWith_app, replace_prefix.
    + intros [H|H]%elem_of_app; [|done].
      vm_compute in H. repeat (apply elem_of_cons in H as [H|H]; [discriminate H|]).
      by apply elem_of_nil in H.
  - intros Hq.
    destruct (indexOf_from_singleton 63%N (linkURL params) 0 ltac:(lia)) as [_ Hpos].
    specialize (Hpos Hq).
    rewrite (bool_decide_eq_false_2 (indexOf_from [63%N] (linkURL params) 0 = (-1)%Z)) by lia.
    by rewrite andb_false_r.
Qed.

Lemma copyLinkAddress_any_mailto_witness :
  copyLinkAddress (Sample.params (lit "mailto:sales+eu@example.org") [] false [])
  = [ClipboardWriteText (lit "sales+eu@example.org")]
  /\ copyLinkAddress (Sample.params (lit "mailto:a@b.c?cc=d@e.f") [] false [])
     = [ClipboardWriteText (lit "mailto:a@b.c?cc=d@e.f")].
Proof.
  split.
  - apply (proj1 (copyLinkAddress_any_mailto
                    (Sample.params (lit "mailto:sales+eu@example.org") [] false []))
             (lit "sales+eu@example.org")).
    + reflexivity.
    + vm_compute. intros H.
      repeat (apply elem_of_cons in H as [H|H]; [discriminate H|]).
      by apply elem_of_nil in H.
  - apply (proj2 (copyLinkAddress_any_mailto
                    (Sample.params (lit "mailto:a@b.c?cc=d@e.f") [] false []))).
    apply (list_elem_of_lookup_2 _ 12). reflexivity.
Defined.

(** X5. The selection as the search and translate labels show it is never
    longer than 49 code units; it is the selection itself when that has
    fewer than 50, and otherwise 48 code units, of which the first 47 are
    those of the selection. *)
Theorem displayText_bounded params :
  length (displayText params) <= 49
  /\ take 47 (displayText params) = take 47 (selectionText params)
  /\ (length (selectionText params) < 50 -> displayText params = selectionText params)
  /\ (50 <= length (selectionText params) -> length (displayText params) = 48).
Proof.
  unfold displayText, substr0, ellipsis. case_bool_decide as Hlen.
  - assert (length (take 47 (selectionText params)) = 47) as Htake.
    { rewrite length_take. lia. }
    rewrite length_app, Htake. cbn [length].
    repeat split; [lia| |lia].
    rewrite take_app_le by lia. by rewrite take_take.
  - repeat split; try done; lia.
Qed.

Lemma displayText_bounded_witness :
  displayText (Sample.params [] (lit "short selection") false []) = lit "short selection"
  /\ length (displayText (Sample.params [] (replicate 300 120%N) false [])) = 48.
Proof.
  split.
  - apply (displayText_bounded (Sample.params [] (lit "short selection") false [])).
    vm_compute. lia.
  - apply (displayText_bounded (Sample.params [] (replicate 300 120%N) false [])).
    vm_compute. lia.
Defined.

(** ** Spelling and dictionary entries *)

Section Spelling.

Variables (env : Env) (contents : WebContents).

Lemma renderSpellingSuggestionMenuItems_length (suggestions : list jsstring) :
  length (renderSpellingSuggestionMenuItems contents suggestions)
  = Nat.max 1 (length suggestions).
Proof.
  destruct suggestions as [|s suggestions]; [done|].
  unfold renderSpellingSuggestionMenuItems. rewrite length_fmap. simpl. lia.
Qed.

(** X6. The spelling section is empty exactly when the click is not on a
    misspelled word in an editable field: a flagged word always gets an
    entry, the 'No Spelling Suggestions' placeholder if nothing else; and a
    list of suggestions is rendered as one item per suggestion, or as that
    one placeholder when it is empty. *)
Theorem renderSpellingSection_nil_iff params :
  (renderSpellingSection env contents params = []
   <-> isEditable params && truthy (misspelledWord params) = false)
  /\ (forall suggestions,
         length (renderSpellingSuggestionMenuItems contents suggestions)
         = Nat.max 1 (length suggestions)).
Proof.
  split; [|apply renderSpellingSuggestionMenuItems_length].
  unfold renderSpellingSection.
  destruct (isEditable params && truthy (misspelledWord params)); [|done].
  split; [|done]. intros Hnil. exfalso.
  destruct (primary _) as [p|], (secondary _) as [s|]; [done| | |];
    apply (f_equal length) in Hnil;
    rewrite renderSpellingSuggestionMenuItems_length in Hnil; simpl in Hnil; lia.
Qed.

Lemma count_checked_radios (current : jsstring) (label_of : jsstring -> jsstring)
    (langs : list jsstring) :
  count_checked
    ((fun lang =>
        with_checked (bool_decide (lang = current))
          (with_type TypeRadio (action_item (label_of lang) [SetSpellcheckerLanguage lang])))
       <$> langs)
  = length (List.filter (fun lang => bool_decide (lang = current)) langs).
Proof.
  unfold count_checked. induction langs as [|lang langs IH]; [done|].
  cbn [fmap list_fmap List.filter with_checked with_type action_item item_fields checked].
  destruct (decide (lang = current)) as [Heq|Hne].
  - rewrite !(bool_decide_eq_true_2 (lang = current)) by done.
    rewrite (bool_decide_eq_true_2 (Some true = Some true)) by done.
    simpl. f_equal. apply IH.
  - rewrite !(bool_decide_eq_false_2 (lang = current)) by done.
    rewrite (bool_decide_eq_false_2 (Some false = Some true)) by done.
    apply IH.
Qed.

Lemma NoDup_filter_eq (current : jsstring) (langs : list jsstring) :
  NoDup langs ->
  length (List.filter (fun lang => bool_decide (lang = current)) langs)
  = if bool_decide (current ∈ langs) then 1 else 0.
Proof.
  induction 1 as [|lang langs Hnotin Hnodup IH]; [done|].
  cbn [List.filter]. destruct (decide (lang = current)) as [Heq|Hne].
  - subst lang. rewrite (bool_decide_eq_true_2 (current = current)) by done.
    cbn [length]. rewrite IH.
    rewrite (bool_decide_eq_false_2 (current ∈ langs)) by done.
    rewrite bool_decide_eq_true_2; [done|by left].
  - rewrite (bool_decide_eq_false_2 (lang = current)) by done.
    rewrite IH. rewrite (bool_decide_ext (current ∈ langs) (current ∈ lang :: langs)); [done|].
    split; [by right|]. intros [?|?]%elem_of_cons; [congruence|done].
Qed.

(** X7. With more than one dictionary installed the application section
    is 'Wavebox Settings', the 'Change Dictionary' submenu and 'Inspect'; the
    submenu holds one radio item per installed dictionary; and when the
    installed dictionaries are pairwise distinct, at most one radio item is
    checked, and exactly one when the current language is installed. *)
Theorem renderWaveboxSection_dictionaries params :
  1 < length (getInstalledDictionaries (spellcheckerService env)) ->
  exists radios,
    renderWaveboxSection env contents params
    = [action_item (lit "Wavebox Settings") [OpenWaveboxSettings];
       submenu_item (lit "Change Dictionary") radios;
       action_item (lit "Inspect")
         [ContentsInspectElement (params_x params) (params_y params)]]
    /\ length radios = length (getInstalledDictionaries (spellcheckerService env))
    /\ Forall (fun i => type (item_fields i) = TypeRadio) radios
    /\ (NoDup (getInstalledDictionaries (spellcheckerService env)) ->
        count_checked radios
        = if bool_decide (primaryLanguage (spellcheckerService env)
                          ∈ getInstalledDictionaries (spellcheckerService env))
          then 1 else 0).
Proof.
  intros Hmany. unfold renderWaveboxSection.
  rewrite bool_decide_eq_true_2 by done.
  eexists. split; [reflexivity|]. split; [by rewrite length_fmap|]. split.
  - apply Forall_fmap, Forall_forall. by intros lang _.
  - intros Hnodup. rewrite count_checked_radios. by apply NoDup_filter_eq.
Qed.

End Spelling.

Lemma renderSpellingSection_nil_iff_witness :
  renderSpellingSection (Sample.env Rejected []) (Sample.contents (lit "https://x.com/"))
    Sample.page_click = [].
Proof.
  apply (proj1 (renderSpellingSection_nil_iff (Sample.env Rejected [])
                  (Sample.contents (lit "https://x.com/")) Sample.page_click)).
  reflexivity.
Defined.

Lemma renderWaveboxSection_dictionaries_witness :
  exists radios,
    renderWaveboxSection Sample.two_dictionaries (Sample.contents (lit "https://x.com/"))
      Sample.page_click
    = [action_item (lit "Wavebox Settings") [OpenWaveboxSettings];
       submenu_item (lit "Change Dictionary") radios;
       action_item (lit "Inspect") [ContentsInspectElement 10 20]]
    /\ count_checked radios = 1.
Proof.
  destruct (renderWaveboxSection_dictionaries Sample.two_dictionaries
              (Sample.contents (lit "https://x.com/")) Sample.page_click)
    as (radios & Hsection & _ & _ & Hchecked).
  - vm_compute. lia.
  - exists radios. split; [exact Hsection|].
    rewrite Hchecked; [reflexivity|].
    apply NoDup_cons. split; [|apply NoDup_singleton].
    intros H%list_elem_of_singleton. discriminate H.
Defined.

(** ** Launching the menu, continued *)

Section LaunchMore.

Variables (env : Env) (contents settled : WebContents) (params : Params).

Lemma renderWaveboxSection_last :
  last (renderWaveboxSection env contents params)
  = Some (action_item (lit "Inspect")
            [ContentsInspectElement (params_x params) (params_y params)]).
Proof. unfold renderWaveboxSection. rewrite app_assoc. apply last_snoc. Qed.

Lemma launchMenu_sections_last :
  exists front,
    launchMenu_sections env contents params
    = front ++ [Some (renderWaveboxSection env contents params)].
Proof.
  unfold launchMenu_sections.
  by eexists [_; _; _; _; _; _; _; _].
Qed.

(** What a launch presents: nothing, or one menu composed of the
    synchronous sections, with the autofill section in front when the lookup
    was started and fulfilled. *)
Lemma launchMenu_popups ui :
  (launchMenu env contents settled params ui).1 = ui
  \/ exists browserWindow front,
      (launchMenu env contents settled params ui).1
      = ui ++ [{| popup_window := browserWindow;
                  popup_template :=
                    convertSectionsToTemplate
                      (front ++ launchMenu_sections env contents params) |}]
      /\ (front = []
          \/ exists credentials,
              front = [renderAutofillSection env settled params credentials]).
Proof.
  unfold launchMenu.
  destruct (rootWebContents _ _) as [rootContents|]; [|by left].
  destruct (browserWindowFromWebContents _ _) as [browserWindow|]; [|by left].
  right. exists browserWindow.
  destruct (_ && _).
  - unfold async_catch, async_then, async_of, presentMenu.
    destruct (findCredentials _ _) as [credentials|]; simpl.
    + exists [renderAutofillSection env settled params credentials].
      split; [reflexivity|]. right. by exists credentials.
    + exists []. by split; [|left].
  - exists []. by split; [|left].
Qed.

(** X8. Whatever the credential lookup does, a launch ends without an
    error and leaves the menus presented before it in place; it presents
    exactly one menu, on the browser window of the sender's root contents,
    when that window can be found, and none otherwise. *)
Theorem launchMenu_outcome ui :
  (launchMenu env contents settled params ui).2 = Fulfilled tt
  /\ exists new,
      (launchMenu env contents settled params ui).1 = ui ++ new
      /\ popup_window <$> new
         = option_list (rootWebContents (windows env) (contents_id contents)
                        ≫= browserWindowFromWebContents (windows env)).
Proof.
  unfold launchMenu.
  destruct (rootWebContents _ _) as [rootContents|]; simpl;
    [|split; [done|]; exists []; by rewrite app_nil_r].
  destruct (browserWindowFromWebContents _ _) as [browserWindow|]; simpl;
    [|split; [done|]; exists []; by rewrite app_nil_r].
  destruct (_ && _).
  - unfold async_catch, async_then, async_of, presentMenu.
    destruct (findCredentials _ _); simpl; (split; [done|]); by eexists [_].
  - simpl. split; [done|]. by eexists [_].
Qed.

(** X9. Every menu a launch presents ends with the 'Inspect' item: no
    presented template is empty or ends with a separator. *)
Theorem launchMenu_ends_with_inspect popup :
  popup ∈ (launchMenu env contents settled params []).1 ->
  last (popup_template popup)
  = Some (action_item (lit "Inspect")
            [ContentsInspectElement (params_x params) (params_y params)]).
Proof.
  intros Hpopup.
  destruct (launchMenu_popups []) as [Hnone|(browserWindow & front & Hone & _)].
  - rewrite Hnone in Hpopup. by apply elem_of_nil in Hpopup.
  - rewrite Hone in Hpopup. apply list_elem_of_singleton in Hpopup as ->. simpl.
    destruct launchMenu_sections_last as [sync ->].
    rewrite app_assoc, convertSectionsToTemplate_last.
    + apply renderWaveboxSection_last.
    + intros Hnil. pose proof renderWaveboxSection_last as Hlast.
      by rewrite Hnil in Hlast.
Qed.

(** X10. When the lookup was started and finds [credentials], and the field
    is still eligible when it settles, the one menu presented starts with the
    autofill section, one item per credential in their order labelled with
    the account and then the two management items, followed by a separator
    and the composition of the synchronous sections. *)
Theorem launchMenu_lookup_fulfilled rootContents browserWindow credentials ui :
  rootWebContents (windows env) (contents_id contents) = Some rootContents ->
  browserWindowFromWebContents (windows env) rootContents = Some browserWindow ->
  lookup_started env contents params ->
  findCredentials (autofillService env) (getURL contents) = Fulfilled credentials ->
  isAutofillPasswordField settled params = true ->
  exists items,
    renderAutofillSection env settled params credentials = Some items
    /\ (label ∘ item_fields) <$> items
       = (Some ∘ account <$> credentials)
         ++ [Some (lit "Manage saved passwords"); Some (lit "Add new password")]
    /\ launchMenu env contents settled params ui
       = (ui ++ [{| popup_window := browserWindow;
                    popup_template :=
                      items ++ separator
                      :: convertSectionsToTemplate
                           (launchMenu_sections env contents params) |}],
          Fulfilled tt).
Proof.
  intros Hroot Hwin Hstarted Hok Heligible.
  assert (exists items,
             renderAutofillSection env settled params credentials = Some items
             /\ (label ∘ item_fields) <$> items
                = (Some ∘ account <$> credentials)
                  ++ [Some (lit "Manage saved passwords"); Some (lit "Add new password")]
             /\ items ≠ []) as (items & Hitems & Hlabels & Hne).
  { unfold renderAutofillSection. rewrite Heligible. simpl.
    eexists. split; [reflexivity|]. split.
    - rewrite fmap_app, <- list_fmap_compose. simpl. f_equal.
    - by destruct credentials. }
  exists items. split; [done|]. split; [done|].
  rewrite (launchMenu_started _ _ _ _ _ _ Hroot Hwin Hstarted).
  unfold async_catch, async_then, async_of. rewrite Hok.
  unfold presentMenu. rewrite Hitems.
  change ([Some items] ++ launchMenu_sections env contents params)
    with (Some items :: launchMenu_sections env contents params).
  rewrite (convertSectionsToTemplate_cons items) by done.
  destruct (convertSectionsToTemplate (launchMenu_sections env contents params))
    as [|i t] eqn:E; [|done].
  exfalso. destruct launchMenu_sections_last as [front Hfront].
  rewrite Hfront in E. apply (f_equal last) in E.
  rewrite convertSectionsToTemplate_last, renderWaveboxSection_last in E; [done|].
  intros Hnil. pose proof renderWaveboxSection_last as Hlast. by rewrite Hnil in Hlast.
Qed.

End LaunchMore.

Lemma launchMenu_ends_with_inspect_witness :
  last (convertSectionsToTemplate
          (launchMenu_sections (Sample.env Rejected Sample.separator_only)
             (Sample.contents (lit "https://x.com/")) Sample.page_click))
  = Some (action_item (lit "Inspect") [ContentsInspectElement 10 20]).
Proof.
  apply (launchMenu_ends_with_inspect (Sample.env Rejected Sample.separator_only)
           (Sample.contents (lit "https://x.com/")) (Sample.contents (lit "https://x.com/"))
           Sample.page_click
           {| popup_window := 1;
              popup_template :=
                convertSectionsToTemplate
                  (launchMenu_sections (Sample.env Rejected Sample.separator_only)
                     (Sample.contents (lit "https://x.com/")) Sample.page_click) |}).
  apply list_elem_of_singleton. reflexivity.
Defined.

Lemma launchMenu_lookup_fulfilled_witness :
  exists items,
    (label ∘ item_fields) <$> items
    = [Some (lit "user@x.com"); Some (lit "Manage saved passwords");
       Some (lit "Add new password")]
    /\ launchMenu (Sample.env (Fulfilled [Sample.credential]) [])
         (Sample.contents (lit "https://x.com/login"))
         (Sample.contents (lit "https://x.com/login")) Sample.password_params []
       = ([{| popup_window := 1;
              popup_template :=
                items ++ separator
                :: convertSectionsToTemplate
                     (launchMenu_sections (Sample.env (Fulfilled [Sample.credential]) [])
                        (Sample.contents (lit "https://x.com/login"))
                        Sample.password_params) |}],
          Fulfilled tt).
Proof.
  destruct (launchMenu_lookup_fulfilled (Sample.env (Fulfilled [Sample.credential]) [])
              (Sample.contents (lit "https://x.com/login"))
              (Sample.contents (lit "https://x.com/login")) Sample.password_params
              7 1 [Sample.credential] [])
    as (items & _ & Hlabels & Hlaunch).
  - reflexivity.
  - reflexivity.
  - repeat split; vm_compute; reflexivity.
  - reflexivity.
  - vm_compute. reflexivity.
  - exists items. split; [exact Hlabels|exact Hlaunch].
Defined.

(** ** The extension menu tree, continued *)

Section TreeMore.

Variables (contents : WebContents) (params : Params) (extensionId : jsstring).

Abbreviation render' := (renderExtensionMenuItem contents params extensionId).
Abbreviation tstep' := (tree_step contents params extensionId).

Lemma map_fmap {A B} (f : A -> B) (l : list A) : List.map f l = f <$> l.
Proof. induction l as [|x l IH]; [done|]. simpl. by rewrite IH. Qed.

Lemma fmap_fields_push (cells : list Cell) (p r : nat) :
  cell_fields <$> alter (push_submenu r) p cells = cell_fields <$> cells.
Proof.
  revert p. induction cells as [|c cells IH]; intros p; [done|].
  destruct p as [|p]; [done|].
  change (alter (push_submenu r) (S p) (c :: cells))
    with (c :: alter (push_submenu r) p cells).
  rewrite !fmap_cons. by rewrite IH.
Qed.

(** The objects carry, in creation order, the fields the rendered nodes
    were rendered with. *)
Lemma tree_run_store_fields st contextMenus :
  cell_fields <$> store (foldl tstep' st contextMenus)
  = (cell_fields <$> store st) ++ omap render' contextMenus.
Proof.
  revert st. induction contextMenus as [|m ms IH]; intros st.
  { simpl. by rewrite app_nil_r. }
  cbn [foldl]. rewrite IH. unfold tree_step.
  change (omap render' (m :: ms))
    with (match render' m with Some f => f :: omap render' ms | None => omap render' ms end).
  destruct (render' m) as [f|]; [|done].
  destruct (lookup_parent st m); cbn [store];
    rewrite ?fmap_fields_push, fmap_app, <- app_assoc; done.
Qed.

Lemma fields_of_seq (cells : list Cell) :
  fields_of cells <$> seq 0 (length cells) = cell_fields <$> cells.
Proof.
  apply list_eq. intros i. rewrite !list_lookup_fmap.
  destruct (decide (i < length cells)) as [Hi|Hi].
  - rewrite lookup_seq_lt by done. simpl.
    destruct (lookup_lt_is_Some_2 cells i Hi) as [c Hc].
    unfold fields_of. by rewrite Hc.
  - rewrite lookup_seq_ge by lia. by rewrite lookup_ge_None_2 by lia.
Qed.

Lemma tree_inv_root_lt st r : tree_inv st -> r ∈ root st -> r < length (store st).
Proof.
  intros Hinv Hr.
  assert (r ∈ seq 0 (length (store st))) as Hseq.
  { rewrite <- (inv_places _ Hinv). apply elem_of_app. by left. }
  apply elem_of_seq in Hseq. lia.
Qed.

(** The fields of a returned top-level item are those of its object. *)
Lemma resolve_item_fields (cells : list Cell) fuel r c :
  cells !! r = Some c -> item_fields (resolve (S fuel) cells r) = cell_fields c.
Proof. intros Hr. simpl. by rewrite Hr. Qed.

(** Every returned top-level item was rendered from a node of the input. *)
Lemma renderExtensionMenuTree_item contextMenus item :
  item ∈ renderExtensionMenuTree contents params extensionId contextMenus ->
  exists m, m ∈ contextMenus /\ render' m = Some (item_fields item).
Proof.
  unfold renderExtensionMenuTree. intros (r & -> & Hr)%list_elem_of_fmap.
  pose proof (renderExtensionMenuTree_state_inv contents params extensionId contextMenus)
    as Hinv.
  set (st := renderExtensionMenuTree_state contents params extensionId contextMenus) in *.
  pose proof (tree_inv_root_lt st r Hinv Hr) as Hlt.
  destruct (lookup_lt_is_Some_2 _ _ Hlt) as [c Hc].
  rewrite (resolve_item_fields _ _ _ c Hc).
  assert (cell_fields c ∈ omap render' contextMenus) as Hin.
  { pose proof (tree_run_store_fields tree_init contextMenus) as Hfields.
    simpl in Hfields. fold (renderExtensionMenuTree_state contents params extensionId
                              contextMenus) in Hfields.
    fold st in Hfields. rewrite <- Hfields.
    apply list_elem_of_fmap. exists c. split; [done|]. by eapply list_elem_of_lookup_2. }
  apply list_elem_of_omap in Hin as (m & Hm & Hrender). by exists m.
Qed.

(** Without parents every node is attached at the root. *)
Lemma tree_run_flat st contextMenus :
  (forall m, m ∈ contextMenus -> truthy_opt (cm_parentId m) = false) ->
  root (foldl tstep' st contextMenus)
  = root st ++ seq (length (store st)) (length (omap render' contextMenus))
  /\ store (foldl tstep' st contextMenus)
     = store st ++ (leaf <$> omap render' contextMenus).
Proof.
  revert st. induction contextMenus as [|m ms IH]; intros st Hflat.
  { simpl. by rewrite !app_nil_r. }
  cbn [foldl].
  destruct (IH (tstep' st m)) as [-> ->].
  { intros m' Hm'. apply Hflat. by right. }
  change (omap render' (m :: ms))
    with (match render' m with Some f => f :: omap render' ms | None => omap render' ms end).
  unfold tree_step, lookup_parent. rewrite (Hflat m) by by left.
  destruct (render' m) as [f|]; [|done].
  cbn [root store]. rewrite length_app. cbn [length fmap list_fmap seq].
  rewrite <- !app_assoc. rewrite Nat.add_1_r. done.
Qed.

(** X11. When no node names a parent, the returned tree is flat: one item
    without submenu for each node that renders, in input order, carrying
    the fields it was rendered with. *)
Theorem renderExtensionMenuTree_flat contextMenus :
  (forall m, m ∈ contextMenus -> truthy_opt (cm_parentId m) = false) ->
  renderExtensionMenuTree contents params extensionId contextMenus
  = (fun f => Item f None) <$> omap render' contextMenus.
Proof.
  intros Hflat. unfold renderExtensionMenuTree, renderExtensionMenuTree_state.
  destruct (tree_run_flat tree_init contextMenus Hflat) as [-> ->]. simpl.
  set (fs := omap render' contextMenus). rewrite length_fmap.
  apply list_eq. intros i. rewrite !list_lookup_fmap.
  destruct (decide (i < length fs)) as [Hi|Hi].
  - rewrite lookup_seq_lt by done. simpl.
    destruct (lookup_lt_is_Some_2 fs i Hi) as [f Hf].
    by rewrite list_lookup_fmap, Hf.
  - rewrite lookup_seq_ge by lia. by rewrite lookup_ge_None_2 by lia.
Qed.

Lemma subtree_app_leaf (cells : list Cell) (f : ItemFields) :
  ordered_store cells ->
  forall fuel r, r < length cells -> subtree fuel (cells ++ [leaf f]) r = subtree fuel cells r.
Proof.
  intros Horder. induction fuel as [|fuel IH]; intros r Hr; [done|].
  simpl. rewrite lookup_app_l by done.
  destruct (cells !! r) as [c|] eqn:Hc; [|done]. f_equal. f_equal.
  apply List.map_ext_in. intros x Hx%list_elem_of_In.
  destruct (cell_submenu c) as [rs|] eqn:Hs; simpl in Hx; [|by apply elem_of_nil in Hx].
  apply IH. by apply (Horder r c rs x).
Qed.

Lemma concat_map_counted (n p : nat) (A A' : nat -> list nat) (ch : list nat) :
  (forall x, x ∈ ch -> A' x ≡ₚ A x ++ replicate (count_occ Nat.eq_dec (A x) p) n) ->
  concat (List.map A' ch)
  ≡ₚ concat (List.map A ch)
     ++ replicate (count_occ Nat.eq_dec (concat (List.map A ch)) p) n.
Proof.
  induction ch as [|x ch IH]; intros Hch; [done|].
  simpl. rewrite (Hch x) by by left.
  rewrite IH by (intros y Hy; apply Hch; by right).
  rewrite count_occ_app, replicate_add.
  rewrite <- !app_assoc. apply Permutation_app_head.
  rewrite !app_assoc. apply Permutation_app_tail, Permutation_app_comm.
Qed.

(** Pushing a new object [n] into the [submenu] of [p] adds [n] to a walk
    once for each time the walk meets [p]. *)
Lemma subtree_push (cells : list Cell) (f : ItemFields) (p : nat) :
  ordered_store cells ->
  p < length cells ->
  forall fuel r,
    r < length cells -> S (length cells) - r < fuel ->
    subtree fuel (alter (push_submenu (length cells)) p (cells ++ [leaf f])) r
    ≡ₚ subtree fuel cells r
       ++ replicate (count_occ Nat.eq_dec (subtree fuel cells r) p) (length cells).
Proof.
  intros Horder Hp. set (n := length cells).
  set (cells' := alter (push_submenu n) p (cells ++ [leaf f])).
  assert (cells' !! n = Some (leaf f)) as Hnew.
  { unfold cells'. rewrite list_lookup_alter_ne by lia.
    by rewrite lookup_app_r, Nat.sub_diag by done. }
  induction fuel as [|fuel IH]; intros r Hr Hfuel; [lia|].
  destruct (lookup_lt_is_Some_2 cells r Hr) as [c Hc].
  assert (forall x, x ∈ default [] (cell_submenu c) ->
                    subtree fuel cells' x
                    ≡ₚ subtree fuel cells x
                       ++ replicate (count_occ Nat.eq_dec (subtree fuel cells x) p) n)
    as Hchildren.
  { intros x Hx.
    destruct (cell_submenu c) as [rs|] eqn:Hs; simpl in Hx; [|by apply elem_of_nil in Hx].
    pose proof (Horder r c rs x Hc Hs Hx). apply IH; lia. }
  apply concat_map_counted in Hchildren.
  cbn [subtree]. rewrite Hc.
  destruct (decide (r = p)) as [->|Hne].
  - assert (cells' !! p = Some (push_submenu n c)) as ->.
    { unfold cells'. rewrite list_lookup_alter_eq.
      by rewrite (lookup_app_l_Some _ _ _ _ Hc). }
    cbn [push_submenu cell_submenu].
    change (default [] (Some ?l)) with l.
    rewrite List.map_app, concat_app. cbn [List.map concat].
    assert (subtree fuel cells' n = [n]) as ->.
    { destruct fuel as [|fuel']; [lia|]. cbn [subtree]. by rewrite Hnew. }
    rewrite Hchildren. rewrite app_nil_r.
    rewrite count_occ_cons_eq by done. rewrite replicate_S_end.
    cbn [app]. apply Permutation_skip. by rewrite <- !app_assoc.
  - assert (cells' !! r = Some c) as ->.
    { unfold cells'. rewrite list_lookup_alter_ne by done.
      by apply lookup_app_l_Some. }
    rewrite Hchildren. rewrite count_occ_cons_neq by done. done.
Qed.

Lemma flat_inv_init : flat_inv tree_init.
Proof. by intros fuel _. Qed.

Lemma flat_inv_step st menuItem :
  tree_inv st -> flat_inv st -> flat_inv (tstep' st menuItem).
Proof.
  intros Hinv Hflat. unfold tree_step.
  destruct (render' menuItem) as [f|]; [|done].
  assert (ordered_store (store st)) as Horder.
  { intros p c rs r. apply (inv_order _ Hinv). }
  destruct (lookup_parent st menuItem) as [parent|] eqn:Hparent.
  - apply lookup_parent_Some in Hparent as (parentId & _ & _ & Hp).
    apply (inv_index _ Hinv) in Hp.
    intros fuel. cbn [root store]. rewrite length_alter, length_app. cbn [length].
    rewrite Nat.add_1_r. intros Hfuel.
    rewrite (concat_map_counted (length (store st)) parent
               (subtree fuel (store st))).
    + specialize (Hflat fuel ltac:(lia)).
      rewrite (proj1 (Permutation_count_occ Nat.eq_dec _ _) Hflat parent).
      rewrite (proj1 (NoDup_count_occ' Nat.eq_dec _) (List.seq_NoDup _ _)).
      * rewrite Hflat, seq_S. done.
      * apply in_seq. lia.
    + intros r Hr. pose proof (tree_inv_root_lt st r Hinv Hr).
      apply (subtree_push (store st) f parent Horder Hp); lia.
  - intros fuel. cbn [root store]. rewrite length_app. cbn [length].
    rewrite Nat.add_1_r. intros Hfuel.
    rewrite List.map_app, concat_app. cbn [List.map concat].
    change {| cell_fields := f; cell_submenu := None |} with (leaf f).
    assert (subtree fuel (store st ++ [leaf f]) (length (store st)) = [length (store st)])
      as ->.
    { destruct fuel as [|fuel']; [lia|]. cbn [subtree].
      by rewrite lookup_app_r, Nat.sub_diag by done. }
    rewrite (List.map_ext_in _ (subtree fuel (store st))).
    + rewrite (Hflat fuel) by lia. by rewrite app_nil_r, seq_S.
    + intros r Hr%list_elem_of_In. apply subtree_app_leaf; [done|].
      by apply tree_inv_root_lt.
Qed.

Lemma flat_inv_run st contextMenus :
  tree_inv st -> flat_inv st -> flat_inv (foldl tstep' st contextMenus).
Proof.
  revert st. induction contextMenus as [|m ms IH]; intros st Hinv Hflat; [done|].
  simpl. apply IH; [by apply tree_step_inv|by apply flat_inv_step].
Qed.

(** Reading an item out of the store reads the fields of the objects a
    walk from it meets, in the same order. *)
Lemma flatten_resolve (cells : list Cell) :
  ordered_store cells ->
  forall fuel r,
    length cells - r < fuel ->
    flatten_item (resolve fuel cells r) = fields_of cells <$> subtree fuel cells r
    \/ cells !! r = None.
Proof.
  intros Horder. induction fuel as [|fuel IH]; intros r Hfuel; [lia|].
  destruct (cells !! r) as [c|] eqn:Hc; [left|by right].
  cbn [resolve subtree]. rewrite Hc. cbn [flatten_item].
  rewrite fmap_cons. unfold fields_of at 1. rewrite Hc. simpl. f_equal.
  destruct (cell_submenu c) as [rs|] eqn:Hs; [|done]. simpl.
  rewrite <- (map_fmap (fields_of cells)), concat_map, !List.map_map. f_equal.
  apply List.map_ext_in. intros x Hx%list_elem_of_In.
  pose proof (Horder r c rs x Hc Hs Hx) as Hx'.
  destruct (IH x ltac:(lia)) as [->|Hnone]; [done|].
  apply lookup_ge_None in Hnone. lia.
Qed.

(** X12. The returned tree holds every rendered node exactly once: the
    fields of its items, those at the top and those in submenus at every
    depth taken together, are the fields the nodes of the input render to,
    up to order. No rendered node is lost, none shows twice. *)
Theorem renderExtensionMenuTree_complete contextMenus :
  flatten_items (renderExtensionMenuTree contents params extensionId contextMenus)
  ≡ₚ omap render' contextMenus.
Proof.
  pose proof (renderExtensionMenuTree_state_inv contents params extensionId contextMenus)
    as Hinv.
  pose proof (flat_inv_run tree_init contextMenus tree_inv_init flat_inv_init) as Hflat.
  pose proof (tree_run_store_fields tree_init contextMenus) as Hfields.
  unfold renderExtensionMenuTree, flatten_items.
  fold (renderExtensionMenuTree_state contents params extensionId contextMenus)
    in Hflat, Hfields.
  set (st := renderExtensionMenuTree_state contents params extensionId contextMenus) in *.
  assert (ordered_store (store st)) as Horder.
  { intros p c rs r. apply (inv_order _ Hinv). }
  simpl in Hfields. rewrite <- Hfields, <- fields_of_seq.
  rewrite <- (Hflat (S (length (store st)))) by lia.
  rewrite <- (map_fmap (fields_of (store st))), <- (map_fmap (resolve _ _)).
  rewrite concat_map, !List.map_map.
  apply reflexive_eq. f_equal.
  apply List.map_ext_in. intros r Hr%list_elem_of_In.
  pose proof (tree_inv_root_lt st r Hinv Hr) as Hlt.
  destruct (flatten_resolve (store st) Horder (S (length (store st))) r ltac:(lia))
    as [->|Hnone]; [done|].
  apply lookup_ge_None in Hnone. lia.
Qed.

(** The [root] array holds its objects in creation order. *)
Lemma tree_run_root_sublist st contextMenus :
  root st `sublist_of` seq 0 (length (store st)) ->
  root (foldl tstep' st contextMenus)
  `sublist_of` seq 0 (length (store (foldl tstep' st contextMenus))).
Proof.
  revert st. induction contextMenus as [|m ms IH]; intros st Hsub; [done|].
  simpl. apply IH. unfold tree_step. destruct (render' m) as [f|]; [|done].
  destruct (lookup_parent st m); cbn [root store];
    rewrite ?length_alter, length_app; cbn [length]; rewrite Nat.add_1_r, seq_S.
  - by apply sublist_inserts_r.
  - by apply sublist_app.
Qed.

(** X13. The top-level items of the returned tree come in the order of
    the input: their fields are a subsequence of the fields the nodes of the
    input render to. *)
Theorem renderExtensionMenuTree_order contextMenus :
  item_fields <$> renderExtensionMenuTree contents params extensionId contextMenus
  `sublist_of` omap render' contextMenus.
Proof.
  pose proof (renderExtensionMenuTree_state_inv contents params extensionId contextMenus)
    as Hinv.
  pose proof (tree_run_store_fields tree_init contextMenus) as Hfields.
  pose proof (tree_run_root_sublist tree_init contextMenus ltac:(done)) as Hsub.
  unfold renderExtensionMenuTree.
  fold (renderExtensionMenuTree_state contents params extensionId contextMenus)
    in Hsub, Hfields.
  set (st := renderExtensionMenuTree_state contents params extensionId contextMenus) in *.
  simpl in Hfields. rewrite <- Hfields, <- fields_of_seq.
  rewrite <- list_fmap_compose.
  assert ((item_fields ∘ resolve (S (length (store st))) (store st)) <$> root st
          = fields_of (store st) <$> root st) as ->.
  { apply Forall_fmap_ext, Forall_forall. intros r Hr. simpl.
    pose proof (tree_inv_root_lt st r Hinv Hr) as Hlt.
    destruct (lookup_lt_is_Some_2 _ _ Hlt) as [c Hc].
    unfold fields_of. by rewrite Hc. }
  by apply fmap_sublist.
Qed.

End TreeMore.

(** ** Separators in a presented menu *)

Section Separators.

Variables (env : Env) (contents settled : WebContents) (params : Params).

Implicit Types (t : list MenuItem).

Lemma well_separated_no_separator t :
  Forall (fun i => is_separator i = false) t -> well_separated t = true.
Proof.
  intros Hno. unfold well_separated.
  assert (starts_with_separator t = false) as ->.
  { destruct Hno; [done|]. done. }
  assert (ends_with_separator t = false) as ->.
  { unfold ends_with_separator. destruct (last t) as [i|] eqn:Hlast; [|done].
    apply last_Some_elem_of in Hlast. by apply (proj1 (Forall_forall _ _) Hno). }
  assert (has_consecutive_separators t = false) as ->; [|done].
  induction Hno as [|i t Hi Hno IH]; [done|]. simpl. by rewrite Hi, IH.
Qed.

(** The template of sections that are each well separated is well
    separated. *)
Lemma convertSectionsToTemplate_well_separated (sections : list MenuSection) :
  (forall s, Some s ∈ sections -> well_separated s = true) ->
  well_separated (convertSectionsToTemplate sections) = true.
Proof.
  intros Hws. rewrite convertSectionsToTemplate_join.
  apply join_sections_well_separated; [apply non_empty_sections_Forall|].
  apply Forall_forall. intros s Hs. apply Hws. unfold non_empty_sections in Hs.
  apply list_elem_of_omap in Hs as ([[|i s']|] & Hin & Heq); simpl in Heq; [done| |done].
  by injection Heq as <-.
Qed.

Ltac no_separators :=
  repeat first
    [ apply Forall_nil_2
    | apply Forall_cons_2; [reflexivity|]
    | apply Forall_app_2
    | apply Forall_fmap, Forall_forall; intros ? _; reflexivity ].

Lemma renderSpellingSection_no_separator :
  Forall (fun i => is_separator i = false) (renderSpellingSection env contents params).
Proof.
  unfold renderSpellingSection, renderSpellingSuggestionMenuItems.
  repeat case_match; no_separators.
Qed.

Lemma renderURLSection_well_separated accountInfo isWaveboxUIContents :
  well_separated (renderURLSection env contents params accountInfo isWaveboxUIContents)
  = true.
Proof.
  unfold renderURLSection, renderAccountProfileItems.
  repeat case_match; reflexivity.
Qed.

Lemma renderLookupAndSearchSection_no_separator :
  Forall (fun i => is_separator i = false)
         (renderLookupAndSearchSection env contents params).
Proof. unfold renderLookupAndSearchSection. repeat case_match; no_separators. Qed.

Lemma renderRewindSection_no_separator :
  Forall (fun i => is_separator i = false) (renderRewindSection contents params).
Proof. unfold renderRewindSection. repeat case_match; no_separators. Qed.

Lemma renderEditingSection_no_separator :
  Forall (fun i => is_separator i = false) (renderEditingSection contents params).
Proof. unfold renderEditingSection. repeat case_match; no_separators. Qed.

Lemma renderPageNavigationSection_no_separator accountInfo :
  Forall (fun i => is_separator i = false)
         (renderPageNavigationSection contents params accountInfo).
Proof. unfold renderPageNavigationSection. repeat case_match; no_separators. Qed.

Lemma renderPageExternalSection_no_separator accountInfo isWaveboxUIContents :
  Forall (fun i => is_separator i = false)
         (renderPageExternalSection contents params accountInfo isWaveboxUIContents).
Proof. unfold renderPageExternalSection. repeat case_match; no_separators. Qed.

Lemma renderWaveboxSection_no_separator :
  Forall (fun i => is_separator i = false) (renderWaveboxSection env contents params).
Proof. unfold renderWaveboxSection. repeat case_match; no_separators. Qed.

Lemma renderAutofillSection_no_separator credentials items :
  renderAutofillSection env settled params credentials = Some items ->
  Forall (fun i => is_separator i = false) items.
Proof.
  unfold renderAutofillSection. case_match; [done|]. intros [= <-]. no_separators.
Qed.

(** A node renders to a separator only if its type is the separator type. *)
Lemma renderExtensionMenuItem_separator extensionId menuItem fields :
  renderExtensionMenuItem contents params extensionId menuItem = Some fields ->
  type fields = TypeSeparator ->
  cm_type menuItem = ITEM_TYPES.SEPERATOR.
Proof.
  unfold renderExtensionMenuItem.
  repeat case_bool_decide; intros [= <-]; done.
Qed.

Lemma renderExtension_no_separator extensionId ext :
  (forall m, m ∈ contextMenus ext -> cm_type m ≠ ITEM_TYPES.SEPERATOR) ->
  Forall (fun i => is_separator i = false) (renderExtension contents params extensionId ext).
Proof.
  intros Hno. unfold renderExtension.
  destruct (renderExtensionMenuTree _ _ _ _) as [|item [|item' rest]] eqn:Htree.
  - case_bool_decide; no_separators.
  - apply Forall_cons_2; [|done].
    destruct (renderExtensionMenuTree_item contents params extensionId
                (List.filter (validContextMenu params) (contextMenus ext)) item)
      as (m & Hm & Hrender).
    { rewrite Htree. by left. }
    assert (type (item_fields item) ≠ TypeSeparator) as Htype.
    { intros Hsep. apply (Hno m).
      - apply list_elem_of_In, List.filter_In in Hm as [Hm _]. by apply list_elem_of_In.
      - by eapply renderExtensionMenuItem_separator. }
    unfold spread_under_icon, is_separator.
    destruct (icon (item_fields item)); [by apply bool_decide_eq_false_2|].
    destruct item as [f s]. simpl in *. by apply bool_decide_eq_false_2.
  - case_bool_decide; no_separators.
Qed.

Lemma renderExtensionSection_no_separator :
  (forall extensionId ext m,
      (extensionId, ext) ∈ runtimeContextMenuData env ->
      m ∈ contextMenus ext -> cm_type m ≠ ITEM_TYPES.SEPERATOR) ->
  Forall (fun i => is_separator i = false) (renderExtensionSection env contents params).
Proof.
  intros Hno. unfold renderExtensionSection.
  destruct (waveboxWindowFromTabId _ _); [|done].
  assert (forall acc exts,
             Forall (fun i => is_separator i = false) acc ->
             (forall extensionId ext, (extensionId, ext) ∈ exts ->
                                      (extensionId, ext) ∈ runtimeContextMenuData env) ->
             Forall (fun i => is_separator i = false)
                    (foldl (fun template '(extensionId, ext) =>
                              template ++ renderExtension contents params extensionId ext)
                           acc exts)) as Hfold.
  { intros acc exts. revert acc. induction exts as [|[i e] exts IH]; intros acc Hacc Hin.
    - done.
    - simpl. apply IH.
      + apply Forall_app_2; [done|]. apply renderExtension_no_separator.
        intros m Hm. apply (Hno i e m); [|done]. apply Hin. by left.
      + intros i' e' Hin'. apply Hin. by right. }
  apply Hfold; [done|]. by intros.
Qed.

(** X14. When no extension registered a node of the separator type, every
    menu a launch presents is well separated: its template does not start
    or end with a separator and holds no two separators in a row, whatever
    the click, the accounts, the lookup and the other extension nodes are. *)
Theorem launchMenu_well_separated popup :
  (forall extensionId ext m,
      (extensionId, ext) ∈ runtimeContextMenuData env ->
      m ∈ contextMenus ext -> cm_type m ≠ ITEM_TYPES.SEPERATOR) ->
  popup ∈ (launchMenu env contents settled params []).1 ->
  well_separated (popup_template popup) = true.
Proof.
  intros Hno Hpopup.
  destruct (launchMenu_popups env contents settled params [])
    as [Hnone|(browserWindow & front & Hone & Hfront)].
  { rewrite Hnone in Hpopup. by apply elem_of_nil in Hpopup. }
  rewrite Hone in Hpopup. apply list_elem_of_singleton in Hpopup as ->. simpl.
  apply convertSectionsToTemplate_well_separated.
  intros s [Hs|Hs]%elem_of_app.
  - destruct Hfront as [->|[credentials ->]]; [by apply elem_of_nil in Hs|].
    apply list_elem_of_singleton in Hs. symmetry in Hs.
    by eapply well_separated_no_separator, renderAutofillSection_no_separator.
  - unfold launchMenu_sections in Hs.
    repeat (apply elem_of_cons in Hs as [[= ->]|Hs]);
      [apply well_separated_no_separator, renderSpellingSection_no_separator
      |apply renderURLSection_well_separated
      |apply well_separated_no_separator, renderLookupAndSearchSection_no_separator
      |apply well_separated_no_separator, renderRewindSection_no_separator
      |apply well_separated_no_separator, renderEditingSection_no_separator
      |apply well_separated_no_separator, renderPageNavigationSection_no_separator
      |apply well_separated_no_separator, renderPageExternalSection_no_separator
      |by apply well_separated_no_separator, renderExtensionSection_no_separator
      |apply well_separated_no_separator, renderWaveboxSection_no_separator
      |by apply elem_of_nil in Hs].
Qed.

End Separators.

Lemma launchMenu_well_separated_witness :
  well_separated
    (convertSectionsToTemplate
       (launchMenu_sections (Sample.env Rejected Sample.nested)
          (Sample.contents (lit "https://x.com/")) Sample.page_click)) = true.
Proof.
  apply (launchMenu_well_separated (Sample.env Rejected Sample.nested)
           (Sample.contents (lit "https://x.com/")) (Sample.contents (lit "https://x.com/"))
           Sample.page_click
           {| popup_window := 1;
              popup_template :=
                convertSectionsToTemplate
                  (launchMenu_sections (Sample.env Rejected Sample.nested)
                     (Sample.contents (lit "https://x.com/")) Sample.page_click) |}).
  - intros extensionId ext m Hext Hm.
    apply list_elem_of_singleton in Hext. injection Hext as -> ->.
    repeat (apply elem_of_cons in Hm as [->|Hm]; [vm_compute; discriminate|]).
    by apply elem_of_nil in Hm.
  - apply list_elem_of_singleton. reflexivity.
Defined.

(** ** Extension entries *)

Section ExtensionMore.

Variables (contents : WebContents) (params : Params).

Lemma renderExtension_length extensionId ext :
  length (renderExtension contents params extensionId ext) <= 1.
Proof.
  unfold renderExtension.
  destruct (renderExtensionMenuTree _ _ _ _) as [|item [|item' rest]];
    try case_bool_decide; simpl; lia.
Qed.

Lemma renderExtensionSection_fold acc (exts : list (jsstring * ExtensionContextMenus)) :
  foldl (fun template '(extensionId, ext) =>
           template ++ renderExtension contents params extensionId ext) acc exts
  = acc ++ concat ((fun '(extensionId, ext) =>
                      renderExtension contents params extensionId ext) <$> exts).
Proof.
  revert acc. induction exts as [|[i e] exts IH]; intros acc; simpl.
  - by rewrite app_nil_r.
  - rewrite IH. by rewrite <- app_assoc.
Qed.

(** X15. The extension section holds at most one entry per extension: at
    most as many items as there are extensions with registered menus; an
    extension none of whose nodes passes the visibility filter adds
    nothing; and outside a Wavebox tab the section is empty. *)
Theorem renderExtensionSection_length env :
  length (renderExtensionSection env contents params) <= length (runtimeContextMenuData env)
  /\ (forall extensionId ext,
         List.filter (validContextMenu params) (contextMenus ext) = [] ->
         renderExtension contents params extensionId ext = [])
  /\ (waveboxWindowFromTabId (windows env) (contents_id contents) = None ->
      renderExtensionSection env contents params = []).
Proof.
  split; [|split].
  - unfold renderExtensionSection.
    destruct (waveboxWindowFromTabId _ _); [|simpl; lia].
    rewrite renderExtensionSection_fold. simpl.
    induction (runtimeContextMenuData env) as [|[i e] exts IH]; [done|].
    simpl. rewrite length_app. pose proof (renderExtension_length i e). unfold fmap in IH. lia.
  - intros extensionId ext Hnone. unfold renderExtension. by rewrite Hnone.
  - intros Hnone. unfold renderExtensionSection. by rewrite Hnone.
Qed.

End ExtensionMore.

Lemma renderExtensionSection_length_witness :
  renderExtension (Sample.contents (lit "https://x.com/")) Sample.page_click (lit "ext")
    (Sample.extension [Sample.page_only]) = [].
Proof.
  apply (proj1 (proj2 (renderExtensionSection_length
                         (Sample.contents (lit "https://x.com/"))
                         Sample.page_click (Sample.env Rejected [])))).
  vm_compute. reflexivity.
Defined.

Lemma renderExtensionMenuTree_flat_witness :
  renderExtensionMenuTree (Sample.contents (lit "https://x.com/")) Sample.page_click
    (lit "ext")
    [Sample.menu (lit "a") None ITEM_TYPES.NORMAL [CONTEXT_TYPES.ALL];
     Sample.menu (lit "b") None (lit "unknown") [CONTEXT_TYPES.ALL];
     Sample.menu (lit "c") (Some []) ITEM_TYPES.RADIO [CONTEXT_TYPES.ALL]]
  = (fun f => Item f None)
      <$> omap (renderExtensionMenuItem (Sample.contents (lit "https://x.com/"))
                  Sample.page_click (lit "ext"))
            [Sample.menu (lit "a") None ITEM_TYPES.NORMAL [CONTEXT_TYPES.ALL];
             Sample.menu (lit "b") None (lit "unknown") [CONTEXT_TYPES.ALL];
             Sample.menu (lit "c") (Some []) ITEM_TYPES.RADIO [CONTEXT_TYPES.ALL]].
Proof.
  apply (renderExtensionMenuTree_flat (Sample.contents (lit "https://x.com/"))
           Sample.page_click (lit "ext")).
  intros m Hm.
  repeat (apply elem_of_cons in Hm as [->|Hm]; [reflexivity|]).
  by apply elem_of_nil in Hm.
Defined.

(** ** Binding the menu to web contents, continued *)

Section BindingMore.

Implicit Types (reg : Registry) (evs : list Event) (w : Windows) (i j : nat).

Lemma run_snoc evs e : run (evs ++ [e]) = step (run evs) e.
Proof. unfold run. by rewrite foldl_app. Qed.

(** Where a newly connected contents comes from. *)
Lemma bindContextMenu_connected w j reg i :
  i ∈ privConnected (bindContextMenu w j reg) ->
  i ∈ privConnected reg
  \/ (i = j /\ suitable w j = true /\ j ∉ destroyedContents reg).
Proof.
  unfold bindContextMenu, suitable.
  case_bool_decide as Hd; [by left|]. case_bool_decide as Hc; [by left|].
  destruct (rootWebContents w j) as [rootContents|]; [|by left].
  destruct (browserWindowFromWebContents w rootContents) as [browserWindow|]; [|by left].
  destruct (rootHasNoContextMenu w browserWindow j); [by left|]. simpl.
  intros [Hij%elem_of_singleton|Hi]%elem_of_union; [subst; by right|by left].
Qed.

Lemma bindContextMenu_suitable w j reg :
  suitable w j = true -> j ∉ destroyedContents reg ->
  j ∈ privConnected (bindContextMenu w j reg).
Proof.
  unfold bindContextMenu, suitable. intros Hs Hd.
  rewrite (bool_decide_eq_false_2 _ Hd).
  case_bool_decide as Hc; [done|].
  destruct (rootWebContents w j) as [rootContents|]; [|done].
  destruct (browserWindowFromWebContents w rootContents) as [browserWindow|]; [|done].
  destruct (rootHasNoContextMenu w browserWindow j); [done|]. simpl.
  apply elem_of_union. left. by apply elem_of_singleton.
Qed.

(** What binding leaves alone. *)
Lemma bindContextMenu_frame w j reg :
  destroyedContents (bindContextMenu w j reg) = destroyedContents reg
  /\ immediates (bindContextMenu w j reg) = immediates reg
  /\ (forall i, i ∈ destroyedListeners reg ->
                i ∈ destroyedListeners (bindContextMenu w j reg))
  /\ (forall i, i ∈ contextMenuListeners (bindContextMenu w j reg) ->
                i ∈ contextMenuListeners reg \/ (i = j /\ j ∈ privConnected (bindContextMenu w j reg)))
  /\ (j ∈ privConnected (bindContextMenu w j reg) ->
      j ∈ destroyedListeners (bindContextMenu w j reg) \/ j ∈ privConnected reg).
Proof.
  unfold bindContextMenu.
  case_bool_decide as Hd; [by repeat split; auto|].
  case_bool_decide as Hc; [by repeat split; auto|].
  destruct (rootWebContents w j) as [rootContents|]; [|by repeat split; auto].
  destruct (browserWindowFromWebContents w rootContents) as [browserWindow|];
    [|by repeat split; auto].
  destruct (rootHasNoContextMenu w browserWindow j); [by repeat split; auto|]. simpl.
  repeat split.
  - intros i Hi. apply elem_of_app. by left.
  - intros i [Hi|Hi%list_elem_of_singleton]%elem_of_app; [by left|].
    right. split; [done|]. apply elem_of_union. left. by apply elem_of_singleton.
  - intros _. left. apply elem_of_app. right. by apply list_elem_of_singleton.
Qed.

(** Every connected contents has its destruction observer and is alive. *)
Lemma connected_alive evs i :
  i ∈ privConnected (run evs) ->
  i ∈ destroyedListeners (run evs) /\ i ∉ destroyedContents (run evs).
Proof.
  revert i. induction evs as [|e evs IH] using rev_ind; intros i.
  { intros Hi. by apply elem_of_empty in Hi. }
  rewrite run_snoc. destruct e as [j|j|w|j]; simpl.
  - apply IH.
  - apply IH.
  - unfold runImmediate. destruct (immediates (run evs)) as [|j rest]; [apply IH|].
    set (reg := {| privConnected := privConnected (run evs);
                   contextMenuListeners := contextMenuListeners (run evs);
                   destroyedListeners := destroyedListeners (run evs);
                   destroyedContents := destroyedContents (run evs);
                   immediates := rest |}).
    destruct (bindContextMenu_frame w j reg) as (-> & _ & Hdl & _ & Hnew).
    intros Hi. pose proof Hi as [Hold|(-> & _ & Hd)]%bindContextMenu_connected.
    + destruct (IH i Hold) as [Hl Hd]. split; [by apply Hdl|done].
    + split; [|done].
      destruct (Hnew Hi) as [Hl|Hc]; [done|].
      apply Hdl. by apply IH.
  - case_bool_decide as Hj.
    + intros [Hi Hne]%elem_of_difference. destruct (IH i Hi) as [Hl Hd].
      split; [done|]. intros [?%elem_of_singleton|?]%elem_of_union; [|done].
      apply Hne. by apply elem_of_singleton.
    + intros Hi. destruct (IH i Hi) as [Hl Hd]. split; [done|].
      intros [Hij%elem_of_singleton|?]%elem_of_union; [|done]. by subst.
Qed.

Lemma destroyed_forever evs evs' i :
  i ∈ destroyedContents (run evs) -> i ∈ destroyedContents (run (evs ++ evs')).
Proof.
  intros Hi. induction evs' as [|e evs' IH] using rev_ind.
  { by rewrite app_nil_r. }
  rewrite app_assoc, run_snoc. destruct e as [j|j|w|j]; simpl; [done|done| |].
  - unfold runImmediate. destruct (immediates _) as [|j rest]; [done|].
    by rewrite (proj1 (bindContextMenu_frame w j _)).
  - apply elem_of_union. by right.
Qed.

(** X16. The connected set never holds a destroyed contents: whatever
    happened before and whatever happens after, a contents is not connected
    once it has been destroyed, so a creation event that arrives late for it
    binds nothing. *)
Theorem destroyed_never_connected before after i :
  i ∉ privConnected (run (before ++ ContentsDestroyed i :: after)).
Proof.
  intros Hi. apply connected_alive in Hi as [_ Hd]. apply Hd.
  change (before ++ ContentsDestroyed i :: after)
    with (before ++ [ContentsDestroyed i] ++ after).
  rewrite app_assoc. apply destroyed_forever. rewrite run_snoc. simpl.
  apply elem_of_union. left. by apply elem_of_singleton.
Qed.

Lemma created_snoc i evs e : created i evs -> created i (evs ++ [e]).
Proof. intros [H|H]; [left|right]; apply elem_of_app; by left. Qed.

(** Only contents that were reported as created are queued, listened to
    or connected. *)
Lemma known_created evs i :
  i ∈ immediates (run evs) \/ i ∈ contextMenuListeners (run evs) \/ i ∈ privConnected (run evs) ->
  created i evs.
Proof.
  revert i. induction evs as [|e evs IH] using rev_ind; intros i.
  { intros [H|[H|H]]; [by apply elem_of_nil in H|by apply elem_of_nil in H|
                       by apply elem_of_empty in H]. }
  rewrite run_snoc. destruct e as [j|j|w|j]; simpl.
  - intros [[H|Hj%list_elem_of_singleton]%elem_of_app|H].
    + apply created_snoc, IH. by left.
    + subst j. left. apply elem_of_app. right. by apply list_elem_of_singleton.
    + apply created_snoc, IH. by right.
  - intros [[H|Hj%list_elem_of_singleton]%elem_of_app|H].
    + apply created_snoc, IH. by left.
    + subst j. right. apply elem_of_app. right. by apply list_elem_of_singleton.
    + apply created_snoc, IH. by right.
  - intros H. apply created_snoc. revert H. unfold runImmediate.
    destruct (immediates (run evs)) as [|j rest] eqn:Hq; [rewrite Hq; apply IH|].
    set (reg := {| privConnected := privConnected (run evs);
                   contextMenuListeners := contextMenuListeners (run evs);
                   destroyedListeners := destroyedListeners (run evs);
                   destroyedContents := destroyedContents (run evs);
                   immediates := rest |}).
    destruct (bindContextMenu_frame w j reg) as (_ & -> & _ & Hl & _).
    assert (created j evs) as Hj.
    { apply IH. left. by left. }
    intros [H|[H|H]].
    + apply IH. left. by right.
    + apply Hl in H as [H|[-> _]]; [|done]. apply IH. right. by left.
    + apply bindContextMenu_connected in H as [H|(-> & _)]; [|done].
      apply IH. right. by right.
  - intros [H|[H|H]]; apply created_snoc, IH; [by left|by right; left|].
    right. right. case_bool_decide; [|done]. by apply elem_of_difference in H as [H _].
Qed.

(** X17. A contents that was never reported as created, by neither of the
    two events, is not connected and carries no listener, so a
    [context-menu] event on it presents nothing. *)
Theorem unknown_contents_unbound evs i :
  ~ created i evs ->
  (i ∉ privConnected (run evs))
  /\ listenersOf i (run evs) = []
  /\ forall env contents settled params,
      contents_id contents = i ->
      emitContextMenu env (run evs) contents settled params = [].
Proof.
  intros Hnot.
  assert (listenersOf i (run evs) = []) as Hnone.
  { unfold listenersOf. destruct (List.filter _ _) as [|x l] eqn:E; [done|]. exfalso.
    assert (x ∈ List.filter (fun i0 => bool_decide (i0 = i)) (contextMenuListeners (run evs)))
      as Hx by (rewrite E; by left).
    apply list_elem_of_In, List.filter_In in Hx as [Hx Hxi].
    apply bool_decide_eq_true_1 in Hxi. subst x.
    apply Hnot, known_created. right. left. by apply list_elem_of_In. }
  split; [|split; [done|]].
  - intros Hc. apply Hnot, known_created. by right; right.
  - intros env contents settled params Hid. unfold emitContextMenu. by rewrite Hid, Hnone.
Qed.

(** X18. The deferred callback binds a suitable contents: when the next
    callback in the queue is for a contents that is not destroyed and that
    the window manager resolves to a window whose menus are not switched off
    for it, then after the callback the contents is connected and carries
    exactly one listener, and the callback has left the queue. *)
Theorem suitable_contents_bound evs w i rest :
  immediates (run evs) = i :: rest ->
  i ∉ destroyedContents (run evs) ->
  suitable w i = true ->
  i ∈ privConnected (run (evs ++ [Immediate w]))
  /\ length (listenersOf i (run (evs ++ [Immediate w]))) = 1
  /\ immediates (run (evs ++ [Immediate w])) = rest.
Proof.
  intros Hq Hd Hs.
  assert (i ∈ privConnected (run (evs ++ [Immediate w]))) as Hc.
  { rewrite run_snoc. simpl. unfold runImmediate. rewrite Hq.
    by apply bindContextMenu_suitable. }
  split; [done|]. split.
  - by apply (bound_once_run (evs ++ [Immediate w]) i).
  - rewrite run_snoc. simpl. unfold runImmediate. rewrite Hq.
    by rewrite (proj1 (proj2 (bindContextMenu_frame w i _))).
Qed.

(** X19. A contents that no window state finds suitable is never connected:
    if in every window state in which a deferred callback ran it has no
    root contents, or no browser window, or is the root of a window that has
    the menu switched off for its root, then no sequence of events connects
    it. *)
Theorem unsuitable_contents_unbound evs i :
  (forall w, w ∈ window_states evs -> suitable w i = false) ->
  i ∉ privConnected (run evs).
Proof.
  induction evs as [|e evs IH] using rev_ind; intros Hw.
  { intros Hi. by apply elem_of_empty in Hi. }
  assert (i ∉ privConnected (run evs)) as Hnot.
  { apply IH. intros w Hin. apply Hw. unfold window_states in *.
    rewrite omap_app. apply elem_of_app. by left. }
  rewrite run_snoc. destruct e as [j|j|w|j]; simpl; [done|done| |].
  - unfold runImmediate. destruct (immediates (run evs)) as [|j rest]; [done|].
    intros [Hi|(-> & Hs & _)]%bindContextMenu_connected; [done|].
    rewrite Hw in Hs; [done|]. unfold window_states. rewrite omap_app.
    apply elem_of_app. right. by left.
  - case_bool_decide; [|done]. by intros [Hi _]%elem_of_difference.
Qed.

End BindingMore.

Lemma unknown_contents_unbound_witness :
  emitContextMenu (Sample.env Rejected []) (run Sample.created_twice)
    {| contents_id := 9; getURL := lit "https://x.com/"; isDestroyed := false;
       sessionIsDefault := false; canGoBack := false; canGoForward := false |}
    {| contents_id := 9; getURL := lit "https://x.com/"; isDestroyed := false;
       sessionIsDefault := false; canGoBack := false; canGoForward := false |}
    Sample.page_click = [].
Proof.
  destruct (unknown_contents_unbound Sample.created_twice 9) as (_ & _ & Hemit).
  - intros [H|H];
      repeat (apply elem_of_cons in H as [H|H]; [discriminate H|]);
      by apply elem_of_nil in H.
  - by apply Hemit.
Defined.

Lemma suitable_contents_bound_witness :
  7 ∈ privConnected (run [WebContentsCreated 7; Immediate Sample.attached])
  /\ length (listenersOf 7 (run [WebContentsCreated 7; Immediate Sample.attached])) = 1.
Proof.
  destruct (suitable_contents_bound [WebContentsCreated 7] Sample.attached 7 [])
    as (Hc & Hl & _).
  - reflexivity.
  - intros H. by apply elem_of_empty in H.
  - reflexivity.
  - split; [exact Hc|exact Hl].
Defined.

Lemma unsuitable_contents_unbound_witness :
  7 ∉ privConnected (run [WebContentsCreated 7; Immediate Sample.detached;
                          BrowserWindowCreated 7; Immediate Sample.detached]).
Proof.
  apply (unsuitable_contents_unbound
           [WebContentsCreated 7; Immediate Sample.detached;
            BrowserWindowCreated 7; Immediate Sample.detached] 7).
  intros w Hw. simpl in Hw.
  repeat (apply elem_of_cons in Hw as [->|Hw]; [reflexivity|]).
  by apply elem_of_nil in Hw.
Defined.

(** ** Debug flags *)



(** ** Autofill eligibility *)

(** X21. Credentials are offered on editable password fields of secure
    pages only: when the field is not a password field, or is not editable,
    or the page address does not start with [https://], the lookup is not
    started and every menu the launch presents is the composition of the
    synchronous sections, whatever the autofill service would answer. *)
Theorem launchMenu_not_eligible env contents settled params popup :
  inputFieldType params ≠ lit "password"
  \/ isEditable params = false
  \/ startsWith (lit "https://") (getURL contents) = false ->
  isAutofillPasswordField contents params = false
  /\ (popup ∈ (launchMenu env contents settled params []).1 ->
      popup_template popup
      = convertSectionsToTemplate (launchMenu_sections env contents params)).
Proof.
  intros Hnot.
  assert (isAutofillPasswordField contents params = false) as Hfield.
  { unfold isAutofillPasswordField. destruct Hnot as [Hp|[He|Hs]].
    - by rewrite bool_decide_eq_true_2.
    - case_bool_decide; [done|]. by rewrite He.
    - case_bool_decide; [done|]. destruct (isEditable params); [|done].
      cbn [negb]. by rewrite Hs. }
  split; [done|]. unfold launchMenu. rewrite Hfield, andb_false_r.
  destruct (rootWebContents _ _) as [rootContents|];
    [|intros H; by apply elem_of_nil in H].
  destruct (browserWindowFromWebContents _ _) as [browserWindow|];
    [|intros H; by apply elem_of_nil in H].
  simpl. by intros ->%list_elem_of_singleton.
Qed.

Lemma launchMenu_not_eligible_witness :
  isAutofillPasswordField (Sample.contents (lit "http://x.com/login")) Sample.password_params
  = false.
Proof.
  apply (launchMenu_not_eligible (Sample.env (Fulfilled [Sample.credential]) [])
           (Sample.contents (lit "http://x.com/login"))
           (Sample.contents (lit "http://x.com/login")) Sample.password_params
           {| popup_window := 1; popup_template := [] |}).
  right. right. reflexivity.
Defined.
